(** * Easy-Ledger: the ledger repository and the aggregation engine

    A shallow embedding of [src/lib/storage.ts] and of the calculator
    module that follows it in the same source file, with the types of
    [src/types/index.ts].

    Modelling conventions.
    - A JavaScript [number] holding an amount, a year, a month or a
      timestamp is a [Z]; only the percent change, the one place where
      the source divides, has its own type [Number] with the
      non-finite results of a JavaScript division.
    - A JSON text (the value kept in [localStorage], the argument of
      [importData], the result of [exportDataByRange]) is represented
      by what [JSON.parse] yields on it: either it does not parse to an
      object ([Unparseable]) or it is an object whose fields may be
      missing ([Parsed]).  [JSON.stringify] followed by [JSON.parse] is
      the identity on such objects.
    - Arrays are lists: [find]/[findIndex] are stdpp's [list_find],
      [push] appends, [splice (i, 1)] is [delete i], an assignment to a
      field of the element at index [i] is [<[i := _]>].
    - [Date.now], [new Date] and [generateId] are read from an
      environment [Env]; [generateId env k] is the identifier returned
      by the [k]-th call made during one operation.
    - An operation is a function of the stored item and returns the
      item it leaves.  Every operation embedded here either stores
      the document it built or changes nothing, so the document read
      after it is the one it stored; the arrays that the state loaded
      from a missing item shares with [defaultState] are therefore
      left out of the model, and [clearAllData] with them. *)

From Stdlib Require Import ZArith QArith Qcanon Lia.
From stdpp Require Import base decidable option strings numbers sorting list.

Open Scope string_scope.
Open Scope list_scope.
Open Scope Z_scope.

(** ** Types ([src/types/index.ts]) *)

Inductive AccountType :=
  cash | debit | credit | digital | investment | loan | debt.

Inductive ThemeType := blue | green | orange | dark | purple.

Inductive OperationType := balance_change | account_create | account_edit.

Inductive MergeMode := overwrite | merge.

#[global] Instance AccountType_eq_dec : EqDecision AccountType.
Proof. solve_decision. Defined.
#[global] Instance ThemeType_eq_dec : EqDecision ThemeType.
Proof. solve_decision. Defined.
#[global] Instance OperationType_eq_dec : EqDecision OperationType.
Proof. solve_decision. Defined.
#[global] Instance MergeMode_eq_dec : EqDecision MergeMode.
Proof. solve_decision. Defined.

Module Account.
Record t := mk {
  id : string;
  name : string;
  type : AccountType;
  icon : string;
  balance : Z;
  includeInTotal : bool;
  isHidden : bool;
  note : option string;
  billDay : option Z;
  repaymentDay : option Z;
  graceDays : option Z;
}.

(** [{ ...account, id: i }] *)
Definition with_id (i : string) (a : t) : t :=
  mk i (name a) (type a) (icon a) (balance a) (includeInTotal a)
     (isHidden a) (note a) (billDay a) (repaymentDay a) (graceDays a).
End Account.

(** [Partial<Account>]: every field may be absent. *)
Module PartialAccount.
Record t := mk {
  id : option string;
  name : option string;
  type : option AccountType;
  icon : option string;
  balance : option Z;
  includeInTotal : option bool;
  isHidden : option bool;
  note : option string;
  billDay : option Z;
  repaymentDay : option Z;
  graceDays : option Z;
}.

Definition empty : t :=
  mk None None None None None None None None None None None.

(** [{ ...a, ...updates }]: a field present in [updates] wins. *)
Definition merge (a : Account.t) (updates : t) : Account.t :=
  Account.mk
    (default (Account.id a) (id updates))
    (default (Account.name a) (name updates))
    (default (Account.type a) (type updates))
    (default (Account.icon a) (icon updates))
    (default (Account.balance a) (balance updates))
    (default (Account.includeInTotal a) (includeInTotal updates))
    (default (Account.isHidden a) (isHidden updates))
    (from_option Some (Account.note a) (note updates))
    (from_option Some (Account.billDay a) (billDay updates))
    (from_option Some (Account.repaymentDay a) (repaymentDay updates))
    (from_option Some (Account.graceDays a) (graceDays updates)).
End PartialAccount.

Module MonthlyRecord.
Record t := mk {
  id : string;
  accountId : string;
  year : Z;
  month : Z;
  balance : Z;
}.

(** [record.balance = b] *)
Definition set_balance (b : Z) (r : t) : t :=
  mk (id r) (accountId r) (year r) (month r) b.

(** The coordinates for which the data model wants at most one record. *)
Definition key (r : t) : string * Z * Z := (accountId r, year r, month r).

(** [r => r.accountId === a && r.year === y && r.month === m] *)
Definition is_for (a : string) (y m : Z) (r : t) : Prop :=
  accountId r = a ∧ year r = y ∧ month r = m.

#[global] Instance is_for_dec a y m r : Decision (is_for a y m r).
Proof. unfold is_for. apply _. Defined.
End MonthlyRecord.

Module RecordLog.
Record t := mk {
  id : string;
  accountId : string;
  accountName : string;
  year : Z;
  month : Z;
  oldBalance : Z;
  newBalance : Z;
  timestamp : Z;
  operationType : option OperationType;
}.
End RecordLog.

Module AppSettings.
Record t := mk { hideBalance : bool; theme : ThemeType }.
End AppSettings.

(** [Partial<AppSettings>], also the [settings] field of a JSON document. *)
Module PartialSettings.
Record t := mk { hideBalance : option bool; theme : option ThemeType }.

(** [{ ...s, ...p }], where [p] may be [undefined]. *)
Definition merge (s : AppSettings.t) (p : option t) : AppSettings.t :=
  match p with
  | None => s
  | Some p =>
      AppSettings.mk (default (AppSettings.hideBalance s) (hideBalance p))
                     (default (AppSettings.theme s) (theme p))
  end.

Definition of_settings (s : AppSettings.t) : t :=
  mk (Some (AppSettings.hideBalance s)) (Some (AppSettings.theme s)).
End PartialSettings.

Record AppState := mkAppState {
  accounts : list Account.t;
  records : list MonthlyRecord.t;
  logs : list RecordLog.t;
  settings : AppSettings.t;
  version : string;
}.

(** ** JSON texts and the environment *)

(** The object a JSON text parses to. *)
Module Json.
Record t := mk {
  accounts : option (list Account.t);
  records : option (list MonthlyRecord.t);
  logs : option (list RecordLog.t);
  settings : option PartialSettings.t;
  version : option string;
}.
End Json.

Inductive JsonText :=
  | Unparseable
  | Parsed (data : Json.t).

(** The item stored under [STORAGE_KEY]; [None] when there is none. *)
Definition LocalStorage : Type := option JsonText.

Record Env := mkEnv {
  generateId : nat → string;
  Date_now : Z;
  getFullYear : Z;
  getMonth : Z;
}.

(** [Array.prototype.find] and [findIndex] ([None] for [undefined], [-1]). *)
Definition find {A} (P : A → Prop) `{∀ x, Decision (P x)} (l : list A) : option A :=
  snd <$> list_find P l.

Definition findIndex {A} (P : A → Prop) `{∀ x, Decision (P x)} (l : list A) : option nat :=
  fst <$> list_find P l.

(** [Array.prototype.sort(compare)].  The sort is stable, so with a
    comparator that orders the elements consistently its result is
    that of the insertion sort that keeps elements comparing equal in
    the order they had: [x], which came before the elements of [l],
    goes before the first of them that it does not follow. *)
Fixpoint insertSorted {A} (compare : A → A → Z) (x : A) (l : list A) : list A :=
  match l with
  | [] => [x]
  | y :: l' =>
      if decide (compare x y ≤ 0) then x :: y :: l' else y :: insertSorted compare x l'
  end.

Definition sort {A} (compare : A → A → Z) (l : list A) : list A :=
  foldr (insertSorted compare) [] l.

(** [l.slice(start)]: a negative [start] counts from the end. *)
Definition slice {A} (start : Z) (l : list A) : list A :=
  let len := Z.of_nat (length l) in
  let k := if decide (start < 0) then Z.max (len + start) 0 else Z.min start len in
  drop (Z.to_nat k) l.

(** ** The ledger repository ([src/lib/storage.ts]) *)

Module Storage.

Definition CURRENT_VERSION : string := "1.2".

Definition defaultState : AppState :=
  {| accounts := []; records := []; logs := [];
     settings := AppSettings.mk false blue;
     version := CURRENT_VERSION |}.

(** [{ ...defaultState, ...parsed, settings: {...}, version }]; a
    missing item, and a text on which [JSON.parse] or the spreads
    throw, give the defaults. *)
Definition loadData (ls : LocalStorage) : AppState :=
  match ls with
  | Some (Parsed parsed) =>
      {| accounts := default (accounts defaultState) (Json.accounts parsed);
         records := default (records defaultState) (Json.records parsed);
         logs := default (logs defaultState) (Json.logs parsed);
         settings := PartialSettings.merge (settings defaultState) (Json.settings parsed);
         version := CURRENT_VERSION |}
  | Some Unparseable | None => defaultState
  end.

(** [JSON.stringify(state)], as the object it parses back to. *)
Definition stringify (state : AppState) : Json.t :=
  {| Json.accounts := Some (accounts state);
     Json.records := Some (records state);
     Json.logs := Some (logs state);
     Json.settings := Some (PartialSettings.of_settings (settings state));
     Json.version := Some (version state) |}.

Definition saveData (state : AppState) : LocalStorage :=
  Some (Parsed (stringify state)).

Definition getSettings (ls : LocalStorage) : AppSettings.t :=
  settings (loadData ls).

Definition updateSettings (p : PartialSettings.t) (ls : LocalStorage) : LocalStorage :=
  let data := loadData ls in
  saveData {| accounts := accounts data; records := records data; logs := logs data;
              settings := PartialSettings.merge (settings data) (Some p);
              version := version data |}.

(** [recordKey >= startKey && recordKey <= endKey] *)
Definition inRange (startYear startMonth endYear endMonth y m : Z) : Prop :=
  startYear * 100 + startMonth ≤ y * 100 + m ∧ y * 100 + m ≤ endYear * 100 + endMonth.

Definition exportDataByRange (startYear startMonth endYear endMonth : Z)
    (ls : LocalStorage) : JsonText :=
  let data := loadData ls in
  let filteredRecords :=
    filter (λ r, inRange startYear startMonth endYear endMonth
                   (MonthlyRecord.year r) (MonthlyRecord.month r)) (records data) in
  let filteredLogs :=
    filter (λ l, inRange startYear startMonth endYear endMonth
                   (RecordLog.year l) (RecordLog.month l)) (logs data) in
  Parsed {| Json.accounts := Some (accounts data);
            Json.records := Some filteredRecords;
            Json.logs := Some filteredLogs;
            Json.settings := None;
            Json.version := Some CURRENT_VERSION |}.

Section WithEnv.
Variable env : Env.

Definition currentYear : Z := getFullYear env.
Definition currentMonth : Z := getMonth env + 1.

(** [data.records.map(r => ({ ...r, id: generateId(), year, month }))],
    the [k]-th element taking the identifier [generateId (n + k)]. *)
Definition redateRecords (n : nat) (targetYear targetMonth : Z)
    (rs : list MonthlyRecord.t) : list MonthlyRecord.t :=
  imap (λ k r, MonthlyRecord.mk (generateId env (n + k)) (MonthlyRecord.accountId r)
                 targetYear targetMonth (MonthlyRecord.balance r)) rs.

Definition redateLogs (n : nat) (targetYear targetMonth : Z)
    (ls : list RecordLog.t) : list RecordLog.t :=
  imap (λ k l, RecordLog.mk (generateId env (n + k)) (RecordLog.accountId l)
                 (RecordLog.accountName l) targetYear targetMonth
                 (RecordLog.oldBalance l) (RecordLog.newBalance l)
                 (Date_now env) (RecordLog.operationType l)) ls.

Definition importData (jsonString : JsonText) (targetYear targetMonth : option Z)
    (mergeMode : MergeMode) (ls : LocalStorage) : bool * LocalStorage :=
  match jsonString with
  | Unparseable => (false, ls)
  | Parsed data =>
      match Json.accounts data, Json.records data with
      | Some dataAccounts, Some dataRecords =>
          let currentData := loadData ls in
          match targetYear, targetMonth with
          | Some targetYear, Some targetMonth =>
              let currentRecords :=
                match mergeMode with
                | overwrite =>
                    filter (λ r, ¬ (MonthlyRecord.year r = targetYear
                                    ∧ MonthlyRecord.month r = targetMonth))
                           (records currentData)
                | merge => records currentData
                end in
              let currentLogs :=
                match mergeMode with
                | overwrite =>
                    filter (λ l, ¬ (RecordLog.year l = targetYear
                                    ∧ RecordLog.month l = targetMonth))
                           (logs currentData)
                | merge => logs currentData
                end in
              let importedRecords := redateRecords 0 targetYear targetMonth dataRecords in
              let importedLogs :=
                redateLogs (length dataRecords) targetYear targetMonth
                           (default [] (Json.logs data)) in
              let newAccounts :=
                filter (λ a, Account.id a ∉ Account.id <$> accounts currentData)
                       dataAccounts in
              (true,
               saveData {| accounts := accounts currentData ++ newAccounts;
                           records := currentRecords ++ importedRecords;
                           logs := currentLogs ++ importedLogs;
                           settings := settings currentData;
                           version := version currentData |})
          | _, _ =>
              (true,
               saveData {| accounts := dataAccounts;
                           records := dataRecords;
                           logs := default [] (Json.logs data);
                           settings := PartialSettings.merge (settings defaultState)
                                                             (Json.settings data);
                           version := CURRENT_VERSION |})
          end
      | _, _ => (false, ls)
      end
  end.

Definition addAccount (account : Account.t) (ls : LocalStorage)
    : Account.t * LocalStorage :=
  let data := loadData ls in
  let newAccount := Account.with_id (generateId env 0) account in
  let '(records', k) :=
    if decide (Account.balance newAccount ≠ 0)
    then (records data ++
            [MonthlyRecord.mk (generateId env 1) (Account.id newAccount)
               currentYear currentMonth (Account.balance newAccount)], 2%nat)
    else (records data, 1%nat) in
  let log :=
    RecordLog.mk (generateId env k) (Account.id newAccount) (Account.name newAccount)
      currentYear currentMonth 0 (Account.balance newAccount) (Date_now env)
      (Some account_create) in
  (newAccount,
   saveData {| accounts := accounts data ++ [newAccount];
               records := records';
               logs := logs data ++ [log];
               settings := settings data;
               version := version data |}).

(** [updates.f !== undefined && updates.f !== old] *)
Definition changed {A} `{EqDecision A} (update : option A) (old : A) : bool :=
  match update with
  | Some v => bool_decide (v ≠ old)
  | None => false
  end.

Definition infoChanged (updates : PartialAccount.t) (oldAccount : Account.t) : bool :=
  changed (PartialAccount.name updates) (Account.name oldAccount)
  || changed (Some <$> PartialAccount.note updates) (Account.note oldAccount)
  || changed (PartialAccount.type updates) (Account.type oldAccount)
  || changed (PartialAccount.icon updates) (Account.icon oldAccount).

Definition updateAccount (id : string) (updates : PartialAccount.t)
    (ls : LocalStorage) : option Account.t * LocalStorage :=
  let data := loadData ls in
  match list_find (λ a, Account.id a = id) (accounts data) with
  | Some (index, found) =>
      let oldAccount := found in
      let updated := PartialAccount.merge found updates in
      let accounts' := <[index := updated]> (accounts data) in
      let '(records', logs', k) :=
        match PartialAccount.balance updates with
        | Some newBalance =>
            if decide (newBalance ≠ Account.balance oldAccount) then
              let '(records', k) :=
                match list_find (MonthlyRecord.is_for id currentYear currentMonth)
                                (records data) with
                | Some (i, existingRecord) =>
                    (<[i := MonthlyRecord.set_balance newBalance existingRecord]>
                       (records data), 0%nat)
                | None =>
                    (records data ++
                       [MonthlyRecord.mk (generateId env 0) id currentYear currentMonth
                          newBalance], 1%nat)
                end in
              (records',
               logs data ++
                 [RecordLog.mk (generateId env k) id (Account.name updated)
                    currentYear currentMonth (Account.balance oldAccount) newBalance
                    (Date_now env) (Some balance_change)],
               S k)
            else (records data, logs data, 0%nat)
        | None => (records data, logs data, 0%nat)
        end in
      let logs'' :=
        if infoChanged updates oldAccount then
          logs' ++
            [RecordLog.mk (generateId env k) id (Account.name updated)
               currentYear currentMonth (Account.balance oldAccount)
               (Account.balance updated) (Date_now env) (Some account_edit)]
        else logs' in
      (Some updated,
       saveData {| accounts := accounts'; records := records'; logs := logs'';
                   settings := settings data; version := version data |})
  | None => (None, ls)
  end.

Definition deleteAccount (id : string) (ls : LocalStorage) : bool * LocalStorage :=
  let data := loadData ls in
  match findIndex (λ a, Account.id a = id) (accounts data) with
  | Some index =>
      (true,
       saveData {| accounts := delete index (accounts data);
                   records := filter (λ r, MonthlyRecord.accountId r ≠ id) (records data);
                   logs := filter (λ l, RecordLog.accountId l ≠ id) (logs data);
                   settings := settings data;
                   version := version data |})
  | None => (false, ls)
  end.

Definition getAccountById (id : string) (ls : LocalStorage) : option Account.t :=
  find (λ a, Account.id a = id) (accounts (loadData ls)).

Definition getAllAccounts (ls : LocalStorage) : list Account.t :=
  accounts (loadData ls).

Definition setMonthlyRecord (accountId : string) (year month balance : Z)
    (ls : LocalStorage) : MonthlyRecord.t * LocalStorage :=
  let data := loadData ls in
  let account := find (λ a, Account.id a = accountId) (accounts data) in
  let existingRecord :=
    list_find (MonthlyRecord.is_for accountId year month) (records data) in
  let oldBalance :=
    match existingRecord with
    | Some (_, r) => MonthlyRecord.balance r
    | None => from_option Account.balance 0 account
    end in
  let '(logs', k) :=
    match account with
    | Some account =>
        if decide (oldBalance ≠ balance) then
          (logs data ++
             [RecordLog.mk (generateId env 0) accountId (Account.name account)
                year month oldBalance balance (Date_now env) (Some balance_change)],
           1%nat)
        else (logs data, 0%nat)
    | None => (logs data, 0%nat)
    end in
  match existingRecord with
  | Some (i, r) =>
      let r' := MonthlyRecord.set_balance balance r in
      (r', saveData {| accounts := accounts data;
                       records := <[i := r']> (records data);
                       logs := logs';
                       settings := settings data;
                       version := version data |})
  | None =>
      let newRecord := MonthlyRecord.mk (generateId env k) accountId year month balance in
      (newRecord, saveData {| accounts := accounts data;
                              records := records data ++ [newRecord];
                              logs := logs';
                              settings := settings data;
                              version := version data |})
  end.

Definition getMonthlyRecord (accountId : string) (year month : Z) (ls : LocalStorage)
    : option MonthlyRecord.t :=
  find (MonthlyRecord.is_for accountId year month) (records (loadData ls)).

Definition getMonthlyRecordsByMonth (year month : Z) (ls : LocalStorage)
    : list MonthlyRecord.t :=
  filter (λ r, MonthlyRecord.year r = year ∧ MonthlyRecord.month r = month)
         (records (loadData ls)).

Definition deleteMonthlyRecord (recordId : string) (ls : LocalStorage)
    : bool * LocalStorage :=
  let data := loadData ls in
  match findIndex (λ r, MonthlyRecord.id r = recordId) (records data) with
  | Some index =>
      (true,
       saveData {| accounts := accounts data;
                   records := delete index (records data);
                   logs := logs data;
                   settings := settings data;
                   version := version data |})
  | None => (false, ls)
  end.

(** [JSON.stringify(loadData(), null, 2)] *)
Definition exportData (ls : LocalStorage) : JsonText :=
  Parsed (stringify (loadData ls)).

Definition getMonthlyRecordsByAccount (accountId : string) (ls : LocalStorage)
    : list MonthlyRecord.t :=
  filter (λ r, MonthlyRecord.accountId r = accountId) (records (loadData ls)).

(** [{ ...log, id: generateId() }] *)
Definition addRecordLog (log : RecordLog.t) (ls : LocalStorage) : RecordLog.t * LocalStorage :=
  let data := loadData ls in
  let newLog :=
    RecordLog.mk (generateId env 0) (RecordLog.accountId log) (RecordLog.accountName log)
      (RecordLog.year log) (RecordLog.month log) (RecordLog.oldBalance log)
      (RecordLog.newBalance log) (RecordLog.timestamp log) (RecordLog.operationType log) in
  (newLog,
   saveData {| accounts := accounts data; records := records data;
               logs := logs data ++ [newLog];
               settings := settings data; version := version data |}).

(** The filter of [getRecordLogs]: the year, and the month when one is
    given. *)
Definition inPeriod (year : Z) (month : option Z) (l : RecordLog.t) : Prop :=
  match month with
  | Some month => RecordLog.year l = year ∧ RecordLog.month l = month
  | None => RecordLog.year l = year
  end.

#[global] Instance inPeriod_dec year month l : Decision (inPeriod year month l).
Proof. destruct month; simpl; apply _. Defined.

(** [(a, b) => b.timestamp - a.timestamp] *)
Definition newestFirst (a b : RecordLog.t) : Z :=
  RecordLog.timestamp b - RecordLog.timestamp a.

Definition getRecordLogs (year : Z) (month : option Z) (ls : LocalStorage)
    : list RecordLog.t :=
  sort newestFirst (filter (inPeriod year month) (logs (loadData ls))).

Definition getRecordLogsByAccount (accountId : string) (ls : LocalStorage)
    : list RecordLog.t :=
  sort newestFirst (filter (λ l, RecordLog.accountId l = accountId) (logs (loadData ls))).

Definition deleteRecordLog (logId : string) (ls : LocalStorage) : bool * LocalStorage :=
  let data := loadData ls in
  match findIndex (λ l, RecordLog.id l = logId) (logs data) with
  | Some index =>
      (true,
       saveData {| accounts := accounts data;
                   records := records data;
                   logs := delete index (logs data);
                   settings := settings data;
                   version := version data |})
  | None => (false, ls)
  end.

(** The body of the loops of [calculateMonthNetWorth],
    [calculateMonthTotalAssets] and [calculateMonthTotalLiabilities];
    the pair holds [totalAssets] and [totalLiabilities], of which the
    last two functions keep one only. *)
Definition monthStep (accounts : list Account.t) (totals : Z * Z) (record : MonthlyRecord.t)
    : Z * Z :=
  match find (λ a, Account.id a = MonthlyRecord.accountId record) accounts with
  | None => totals
  | Some account =>
      if decide (Account.type account = credit ∨ Account.type account = debt)
      then (totals.1, totals.2 + Z.abs (MonthlyRecord.balance record))
      else (totals.1 + MonthlyRecord.balance record, totals.2)
  end.

Definition calculateMonthNetWorth (year month : Z) (ls : LocalStorage) : Z :=
  let data := loadData ls in
  let records :=
    filter (λ r, MonthlyRecord.year r = year ∧ MonthlyRecord.month r = month) (records data) in
  let totals := foldl (monthStep (accounts data)) (0, 0) records in
  totals.1 - totals.2.

Definition calculateMonthTotalAssets (year month : Z) (ls : LocalStorage) : Z :=
  let data := loadData ls in
  let records :=
    filter (λ r, MonthlyRecord.year r = year ∧ MonthlyRecord.month r = month) (records data) in
  foldl (λ totalAssets record,
           match find (λ a, Account.id a = MonthlyRecord.accountId record) (accounts data) with
           | None => totalAssets
           | Some account =>
               if decide (Account.type account ≠ credit ∧ Account.type account ≠ debt)
               then totalAssets + MonthlyRecord.balance record
               else totalAssets
           end) 0 records.

Definition calculateMonthTotalLiabilities (year month : Z) (ls : LocalStorage) : Z :=
  let data := loadData ls in
  let records :=
    filter (λ r, MonthlyRecord.year r = year ∧ MonthlyRecord.month r = month) (records data) in
  foldl (λ totalLiabilities record,
           match find (λ a, Account.id a = MonthlyRecord.accountId record) (accounts data) with
           | None => totalLiabilities
           | Some account =>
               if decide (Account.type account = credit ∨ Account.type account = debt)
               then totalLiabilities + Z.abs (MonthlyRecord.balance record)
               else totalLiabilities
           end) 0 records.

End WithEnv.
End Storage.

(** ** The aggregation engine (the calculator module) *)

(** The result of the one expression of the source that divides.  A
    JavaScript division does not fault on a zero divisor: it yields an
    infinity or NaN. *)
Inductive Number :=
  | Finite (q : Qc)
  | PosInfinity
  | NegInfinity
  | NaN.

Module MonthlyNetWorth.
Record t := mk {
  year : Z;
  month : Z;
  netWorth : Z;
  totalAssets : Z;
  totalLiabilities : Z;
  change : Z;
  changePercent : Number;
}.
End MonthlyNetWorth.

Module YearlyNetWorth.
Record t := mk {
  year : Z;
  netWorth : Z;
  totalAssets : Z;
  totalLiabilities : Z;
  lastRecordedMonth : Z;
  change : Z;
  changePercent : Number;
}.
End YearlyNetWorth.

Module AccountGroup.
Record t := mk {
  type : AccountType;
  label : string;
  accounts : list Account.t;
  totalBalance : Z;
}.
End AccountGroup.

Module AccountTypeConfig.
Record t := mk { type : AccountType; label : string; icon : string }.
End AccountTypeConfig.

Module Calculator.

Definition ACCOUNT_TYPES : list AccountTypeConfig.t :=
  [AccountTypeConfig.mk cash "现金" "banknote";
   AccountTypeConfig.mk debit "储蓄卡" "credit-card";
   AccountTypeConfig.mk credit "信用卡" "credit-card";
   AccountTypeConfig.mk digital "网络支付" "wallet";
   AccountTypeConfig.mk investment "投资账户" "trending-up";
   AccountTypeConfig.mk loan "借出" "handshake";
   AccountTypeConfig.mk debt "借入" "clipboard"].

(** [config?.label || '其他']: an empty label, too, gives the fallback. *)
Definition getAccountTypeLabel (type : AccountType) : string :=
  match find (λ t, AccountTypeConfig.type t = type) ACCOUNT_TYPES with
  | Some config =>
      if decide (AccountTypeConfig.label config = "") then "其他"
      else AccountTypeConfig.label config
  | None => "其他"
  end.

Definition getAccountTypeIcon (type : AccountType) : string :=
  match find (λ t, AccountTypeConfig.type t = type) ACCOUNT_TYPES with
  | Some config =>
      if decide (AccountTypeConfig.icon config = "") then "circle"
      else AccountTypeConfig.icon config
  | None => "circle"
  end.

Definition ofZ (z : Z) : Qc := Q2Qc (inject_Z z).

(** [a / b] on two integers. *)
Definition divide (a b : Z) : Number :=
  if decide (b = 0) then
    if decide (a = 0) then NaN
    else if decide (0 < a) then PosInfinity else NegInfinity
  else Finite (ofZ a / ofZ b)%Qc.

(** [n * 100] *)
Definition times100 (n : Number) : Number :=
  match n with
  | Finite q => Finite (q * ofZ 100)%Qc
  | PosInfinity => PosInfinity
  | NegInfinity => NegInfinity
  | NaN => NaN
  end.

(** [lastNetWorth !== 0 ? (change / Math.abs(lastNetWorth)) * 100 : 0] *)
Definition percentOf (change lastNetWorth : Z) : Number :=
  if decide (lastNetWorth ≠ 0)
  then times100 (divide change (Z.abs lastNetWorth))
  else Finite 0%Qc.

(** The two lines every loop of the engine starts with:
    [record = records.find(r => r.accountId === account.id)] and
    [balance = record ? record.balance : account.balance]. *)
Definition balanceOf (records : list MonthlyRecord.t) (account : Account.t) : Z :=
  match find (λ r, MonthlyRecord.accountId r = Account.id account) records with
  | Some record => MonthlyRecord.balance record
  | None => Account.balance account
  end.

(** The bodies of the [for (const account of accounts)] loops. *)
Definition assetsStep (records : list MonthlyRecord.t) (total : Z) (account : Account.t) : Z :=
  if Account.isHidden account then total
  else
    let balance := balanceOf records account in
    match Account.type account with
    | credit => if decide (balance < 0) then total + Z.abs balance else total
    | debt => total
    | _ => total + balance
    end.

Definition liabilitiesStep (records : list MonthlyRecord.t) (total : Z) (account : Account.t) : Z :=
  if Account.isHidden account then total
  else
    let balance := balanceOf records account in
    let total :=
      if decide (Account.type account = credit ∧ 0 < balance)
      then total + balance else total in
    if decide (Account.type account = debt) then total + Z.abs balance else total.

Definition loanOutStep (records : list MonthlyRecord.t) (total : Z) (account : Account.t) : Z :=
  if decide (Account.type account = loan)
  then total + balanceOf records account
  else total.

Definition debtInStep (records : list MonthlyRecord.t) (total : Z) (account : Account.t) : Z :=
  if decide (Account.type account = debt)
  then total + Z.abs (balanceOf records account)
  else total.

Definition calculateTotalAssets (year month : Z) (ls : LocalStorage) : Z :=
  let accounts := Storage.getAllAccounts ls in
  let records := Storage.getMonthlyRecordsByMonth year month ls in
  foldl (assetsStep records) 0 accounts.

Definition calculateTotalLiabilities (year month : Z) (ls : LocalStorage) : Z :=
  let accounts := Storage.getAllAccounts ls in
  let records := Storage.getMonthlyRecordsByMonth year month ls in
  foldl (liabilitiesStep records) 0 accounts.

Definition calculateNetWorth (year month : Z) (ls : LocalStorage) : Z :=
  let totalAssets := calculateTotalAssets year month ls in
  let totalLiabilities := calculateTotalLiabilities year month ls in
  totalAssets - totalLiabilities.

(** The month before [(year, month)], as the source computes it. *)
Definition previousMonth (year month : Z) : Z * Z :=
  if decide (month - 1 = 0) then (year - 1, 12) else (year, month - 1).

Definition getMonthlyNetWorth (year month : Z) (ls : LocalStorage) : MonthlyNetWorth.t :=
  let totalAssets := calculateTotalAssets year month ls in
  let totalLiabilities := calculateTotalLiabilities year month ls in
  let netWorth := totalAssets - totalLiabilities in
  let '(lastYear, lastMonth) := previousMonth year month in
  let lastNetWorth := calculateNetWorth lastYear lastMonth ls in
  let change := netWorth - lastNetWorth in
  let changePercent := percentOf change lastNetWorth in
  MonthlyNetWorth.mk year month netWorth totalAssets totalLiabilities change changePercent.

(** [Math.max(...months)] on a non-empty array; the source returns [0]
    before calling it on an empty one. *)
Definition getLastRecordedMonth (year : Z) (ls : LocalStorage) : Z :=
  let data := Storage.loadData ls in
  let yearRecords := filter (λ r, MonthlyRecord.year r = year) (records data) in
  match MonthlyRecord.month <$> yearRecords with
  | [] => 0
  | m :: months => foldl Z.max m months
  end.

Definition getYearlyNetWorth (year : Z) (ls : LocalStorage) : YearlyNetWorth.t :=
  let lastMonth :=
    let m := getLastRecordedMonth year ls in
    if decide (m = 0) then 12 else m in
  let totalAssets := calculateTotalAssets year lastMonth ls in
  let totalLiabilities := calculateTotalLiabilities year lastMonth ls in
  let netWorth := totalAssets - totalLiabilities in
  let lastYearNetWorth := calculateNetWorth (year - 1) 12 ls in
  let change := netWorth - lastYearNetWorth in
  let changePercent := percentOf change lastYearNetWorth in
  YearlyNetWorth.mk year netWorth totalAssets totalLiabilities lastMonth change changePercent.

Definition calculateLoanOut (year month : Z) (ls : LocalStorage) : Z :=
  let accounts := Storage.getAllAccounts ls in
  let records := Storage.getMonthlyRecordsByMonth year month ls in
  foldl (loanOutStep records) 0 accounts.

Definition calculateDebtIn (year month : Z) (ls : LocalStorage) : Z :=
  let accounts := Storage.getAllAccounts ls in
  let records := Storage.getMonthlyRecordsByMonth year month ls in
  foldl (debtInStep records) 0 accounts.

(** [for (let month = 1; month <= 12; month++)] *)
Definition getYearlyMonthlyData (year : Z) (ls : LocalStorage) : list MonthlyNetWorth.t :=
  (λ month, getMonthlyNetWorth year month ls) <$> seqZ 1 12.

(** The comparator of [getAccountHistory]: by year, then by month. *)
Definition chronological (a b : MonthlyRecord.t) : Z :=
  if decide (MonthlyRecord.year a ≠ MonthlyRecord.year b)
  then MonthlyRecord.year a - MonthlyRecord.year b
  else MonthlyRecord.month a - MonthlyRecord.month b.

(** [months] is [None] when the caller leaves it out; it is then [12]. *)
Definition getAccountHistory (accountId : string) (months : option Z) (ls : LocalStorage)
    : list MonthlyRecord.t :=
  let months := default 12 months in
  let data := Storage.loadData ls in
  slice (- months)
    (sort chronological
       (filter (λ r, MonthlyRecord.accountId r = accountId) (records data))).

(** The calculator's own [saveData]: [{ ...data, version: '1.1' }]. *)
Definition saveData (data : AppState) : LocalStorage :=
  Some (Parsed (Storage.stringify
    {| accounts := accounts data; records := records data; logs := logs data;
       settings := settings data; version := "1.1" |})).

(** The positions of the elements of [l] that satisfy [P]: the array
    [l.filter(P)] holds the very objects of [l], so an element of it
    is known by its position in [l]. *)
Definition positions {A} (P : A → Prop) `{∀ x, Decision (P x)} (l : list A) : list nat :=
  fst <$> filter (λ ix, P ix.2) (imap pair l).

Section WithEnv.
Variable env : Env.

(** One turn of the loop of [copyLastMonthBalances].  [j] is the
    position in [data.records] of the record of last month being
    copied; its balance is read from the array as it is at that
    turn.  [k] counts the calls of [generateId]. *)
Definition copyStep (year month : Z) (st : list MonthlyRecord.t * nat) (j : nat)
    : list MonthlyRecord.t * nat :=
  let '(recs, k) := st in
  match recs !! j with
  | Some record =>
      match list_find (MonthlyRecord.is_for (MonthlyRecord.accountId record) year month)
                      recs with
      | Some (existingIndex, existing) =>
          (<[existingIndex :=
               MonthlyRecord.set_balance (MonthlyRecord.balance record) existing]> recs, k)
      | None =>
          (recs ++ [MonthlyRecord.mk (generateId env k) (MonthlyRecord.accountId record)
                      year month (MonthlyRecord.balance record)], S k)
      end
  | None => (recs, k)
  end.

Definition copyLastMonthBalances (year month : Z) (ls : LocalStorage) : LocalStorage :=
  let data := Storage.loadData ls in
  let '(lastYear, lastMonth) := previousMonth year month in
  let lastMonthRecords :=
    positions (λ r, MonthlyRecord.year r = lastYear ∧ MonthlyRecord.month r = lastMonth)
              (records data) in
  let '(records', _) := foldl (copyStep year month) (records data, 0%nat) lastMonthRecords in
  saveData {| accounts := accounts data; records := records'; logs := logs data;
              settings := settings data; version := version data |}.

(** The group of one entry of [ACCOUNT_TYPES], if it has accounts. *)
Definition groupOf (accounts : list Account.t) (records : list MonthlyRecord.t)
    (typeConfig : AccountTypeConfig.t) : option AccountGroup.t :=
  let typeAccounts :=
    filter (λ a, Account.type a = AccountTypeConfig.type typeConfig) accounts in
  if decide (length typeAccounts = 0%nat) then None
  else
    let totalBalance :=
      foldl (λ totalBalance account, totalBalance + balanceOf records account) 0
            typeAccounts in
    Some (AccountGroup.mk (AccountTypeConfig.type typeConfig)
            (AccountTypeConfig.label typeConfig) typeAccounts totalBalance).

Definition getAccountGroups (ls : LocalStorage) : list AccountGroup.t :=
  let accounts := filter (λ a, Account.isHidden a = false) (Storage.getAllAccounts ls) in
  let year := getFullYear env in
  let month := getMonth env + 1 in
  let records := Storage.getMonthlyRecordsByMonth year month ls in
  omap (groupOf accounts records) ACCOUNT_TYPES.
End WithEnv.
End Calculator.

(** ** Notions used by the statements *)

(** At most one record per (account, year, month). *)
Definition uniqueRecords (rs : list MonthlyRecord.t) : Prop :=
  NoDup (MonthlyRecord.key <$> rs).

(** An import payload that does not parse, or that lacks [accounts] or
    [records]. *)
Definition malformed (jsonString : JsonText) : Prop :=
  match jsonString with
  | Unparseable => True
  | Parsed data => Json.accounts data = None ∨ Json.records data = None
  end.

(** No account of the document has identifier [id]. *)
Definition unknownAccount (id : string) (ls : LocalStorage) : Prop :=
  ∀ a, a ∈ accounts (Storage.loadData ls) → Account.id a ≠ id.

(** The document of [ls] with its accounts replaced by [accs]. *)
Definition withAccounts (accs : list Account.t) (ls : LocalStorage) : LocalStorage :=
  let data := Storage.loadData ls in
  Storage.saveData {| accounts := accs; records := records data; logs := logs data;
                      settings := settings data; version := version data |}.

(** What the three writers of a monthly balance do to [data.records]:
    set the balance of the record found for the coordinates, or push a
    new record with identifier [newId]. *)
Definition upsertRecord (newId a : string) (y m b : Z) (rs : list MonthlyRecord.t)
    : list MonthlyRecord.t :=
  match list_find (MonthlyRecord.is_for a y m) rs with
  | Some (i, r) => <[i := MonthlyRecord.set_balance b r]> rs
  | None => rs ++ [MonthlyRecord.mk newId a y m b]
  end.

(** One turn of the loop, on the record itself rather than on its
    position. *)
Definition copyValueStep (env : Env) (year month : Z)
    (st : list MonthlyRecord.t * nat) (record : MonthlyRecord.t) : list MonthlyRecord.t * nat :=
  (upsertRecord (generateId env st.2) (MonthlyRecord.accountId record) year month
     (MonthlyRecord.balance record) st.1,
   match list_find (MonthlyRecord.is_for (MonthlyRecord.accountId record) year month) st.1 with
   | Some _ => st.2
   | None => S st.2
   end).

(** The sum of a list of amounts. *)
Definition sumZ (l : list Z) : Z := foldr Z.add 0 l.

(** No two accounts with the same identifier. *)
Definition uniqueAccountIds (accs : list Account.t) : Prop :=
  NoDup (Account.id <$> accs).

(** What an account adds to the net worth of a month: nothing when it
    is hidden; otherwise its balance, counted negatively for a credit
    card and as a negative magnitude for a debt. *)
Definition netContribution (records : list MonthlyRecord.t) (account : Account.t) : Z :=
  if Account.isHidden account then 0
  else
    let balance := Calculator.balanceOf records account in
    match Account.type account with
    | credit => - balance
    | debt => - Z.abs balance
    | _ => balance
    end.

(** The chronological order on (year, month). *)
Definition notAfter (y1 m1 y2 m2 : Z) : Prop :=
  y1 < y2 ∨ (y1 = y2 ∧ m1 ≤ m2).

(** [a] is not older than [b]: the order of the logs, newest first. *)
Definition notOlder (a b : RecordLog.t) : Prop :=
  RecordLog.timestamp b ≤ RecordLog.timestamp a.

(** The record [a] is of a month not after that of [b]. *)
Definition notLater (a b : MonthlyRecord.t) : Prop :=
  notAfter (MonthlyRecord.year a) (MonthlyRecord.month a)
           (MonthlyRecord.year b) (MonthlyRecord.month b).

(** The records and the logs of an exported text. *)
Definition exportedRecords (text : JsonText) : list MonthlyRecord.t :=
  match text with
  | Parsed data => default [] (Json.records data)
  | Unparseable => []
  end.

Definition exportedLogs (text : JsonText) : list RecordLog.t :=
  match text with
  | Parsed data => default [] (Json.logs data)
  | Unparseable => []
  end.

(** An update that sets [isHidden] only. *)
Definition setHidden (b : bool) : PartialAccount.t :=
  PartialAccount.mk None None None None None None (Some b) None None None None.

(** An update that sets [includeInTotal] only. *)
Definition setIncludeInTotal (b : bool) : PartialAccount.t :=
  PartialAccount.mk None None None None None (Some b) None None None None None.

(** ** Documents and environments used as examples *)

(** An environment whose [generateId] returns [g0], [g1] and then [g2],
    in May 2024. *)
Definition sampleEnv : Env :=
  mkEnv (λ k, match k with O => "g0" | 1%nat => "g1" | _ => "g2" end) 7 2024 4.

(** A document with one cash account [a] of balance [100]. *)
Definition oneAccount : LocalStorage :=
  Some (Parsed (Storage.stringify
    {| accounts := [Account.mk "a" "Wallet" cash "banknote" 100 true false None None None None];
       records := []; logs := [];
       settings := AppSettings.mk false blue;
       version := Storage.CURRENT_VERSION |})).

Definition renameAndSet (n : string) (b : Z) : PartialAccount.t :=
  PartialAccount.mk None (Some n) None None (Some b) None None None None None None.

(** A document whose only account has a zero baseline and a record of
    [100] in May 2024: its net worth is [0] in April 2024 and in
    December 2023, and [100] in May 2024. *)
Definition firstRecordInMay : LocalStorage :=
  Some (Parsed (Storage.stringify
    {| accounts := [Account.mk "a" "Wallet" cash "banknote" 0 true false None None None None];
       records := [MonthlyRecord.mk "r" "a" 2024 5 100]; logs := [];
       settings := AppSettings.mk false blue;
       version := Storage.CURRENT_VERSION |})).

(** A cash account of [1000] and a credit card whose baseline is [50]
    (owed) and whose record of March 2024 is [-50] (overpaid). *)
Definition cardAccount : Account.t :=
  Account.mk "c" "Card" credit "credit-card" 50 true false None (Some 1) (Some 10) (Some 0).

Definition walletAccount : Account.t :=
  Account.mk "w" "Wallet" cash "banknote" 1000 true false None None None None.

Definition walletAndCard : LocalStorage :=
  Some (Parsed (Storage.stringify
    {| accounts := [walletAccount; cardAccount];
       records := [MonthlyRecord.mk "r" "c" 2024 3 (-50)]; logs := [];
       settings := AppSettings.mk false blue;
       version := Storage.CURRENT_VERSION |})).

(** A hidden loan of [100] and a hidden debt of [-30], nothing else. *)
Definition hiddenLoanAndDebt : LocalStorage :=
  Some (Parsed (Storage.stringify
    {| accounts :=
         [Account.mk "l" "Lent" loan "handshake" 100 true true None None None None;
          Account.mk "d" "Owed" debt "clipboard" (-30) true true None None None None];
       records := []; logs := [];
       settings := AppSettings.mk false blue;
       version := Storage.CURRENT_VERSION |})).

(** An account with a record of [700] in April 2024 and one of [5] in
    May 2024, and the log of the latter. *)
Definition aprilAndMay : LocalStorage :=
  Some (Parsed (Storage.stringify
    {| accounts := [Account.mk "a" "Wallet" cash "banknote" 0 true false None None None None];
       records := [MonthlyRecord.mk "r1" "a" 2024 4 700; MonthlyRecord.mk "r2" "a" 2024 5 5];
       logs := [RecordLog.mk "l1" "a" "Wallet" 2024 5 0 5 1 (Some balance_change)];
       settings := AppSettings.mk true dark;
       version := Storage.CURRENT_VERSION |})).

(** ** Loading what was saved *)

Lemma merge_of_settings d s :
  PartialSettings.merge d (Some (PartialSettings.of_settings s)) = s.
Proof. by destruct s. Qed.

Lemma loadData_saveData st :
  Storage.loadData (Storage.saveData st)
  = {| accounts := accounts st; records := records st; logs := logs st;
       settings := settings st; version := Storage.CURRENT_VERSION |}.
Proof.
  by destruct st as [? ? ? [] ?].
Qed.

Lemma loadData_calculator_saveData st :
  Storage.loadData (Calculator.saveData st)
  = {| accounts := accounts st; records := records st; logs := logs st;
       settings := settings st; version := Storage.CURRENT_VERSION |}.
Proof.
  by destruct st as [? ? ? [] ?].
Qed.

#[local] Opaque Storage.saveData Calculator.saveData.

Lemma list_find_unknown {A} (P : A → Prop) `{∀ x, Decision (P x)} (l : list A) :
  (∀ x, x ∈ l → ¬ P x) → list_find P l = None.
Proof. intros HP. apply list_find_None, Forall_forall, HP. Qed.

(** ** Malformed imports *)

(** C5. [importData] on a payload that does not parse, or that lacks
    the [accounts] or the [records] field, returns [false] and leaves
    the stored document as it was, whatever the target period and the
    merge mode. *)
Theorem importData_malformed env jsonString targetYear targetMonth mergeMode ls :
  malformed jsonString →
  Storage.importData env jsonString targetYear targetMonth mergeMode ls = (false, ls).
Proof.
  destruct jsonString as [|data]; [done|]. simpl.
  intros [Hm | Hm]; rewrite Hm; [done|].
  by destruct (Json.accounts data).
Qed.

(** ** Export, then import *)

(** C6. Importing, with no target period, what [exportDataByRange]
    produced for a range succeeds and leaves a document with the
    accounts of the exported one, and with exactly those of its records
    and logs that lie in the range. *)
Theorem export_import_round_trip env startYear startMonth endYear endMonth
    targetYear targetMonth mergeMode (ls target : LocalStorage) :
  targetYear = None ∨ targetMonth = None →
  let exported := Storage.exportDataByRange startYear startMonth endYear endMonth ls in
  let result := Storage.importData env exported targetYear targetMonth mergeMode target in
  result.1 = true
  ∧ accounts (Storage.loadData result.2) = accounts (Storage.loadData ls)
  ∧ records (Storage.loadData result.2)
    = filter (λ r, Storage.inRange startYear startMonth endYear endMonth
                     (MonthlyRecord.year r) (MonthlyRecord.month r))
             (records (Storage.loadData ls))
  ∧ logs (Storage.loadData result.2)
    = filter (λ l, Storage.inRange startYear startMonth endYear endMonth
                     (RecordLog.year l) (RecordLog.month l))
             (logs (Storage.loadData ls)).
Proof.
  intros Hnone. simpl.
  assert (match targetYear, targetMonth with Some _, Some _ => False | _, _ => True end) as Ht.
  { destruct Hnone as [-> | ->]; [done | by destruct targetYear]. }
  destruct targetYear, targetMonth; try done; simpl; by rewrite loadData_saveData.
Qed.

Lemma export_import_round_trip_witness :
  let env := mkEnv (λ _, "g") 0 2024 0 in
  let ls :=
    Storage.saveData
      {| accounts := [Account.mk "a" "Wallet" cash "banknote" 10 true false None None None None];
         records := [MonthlyRecord.mk "r1" "a" 2023 12 7; MonthlyRecord.mk "r2" "a" 2024 3 9];
         logs := [RecordLog.mk "l1" "a" "Wallet" 2024 3 7 9 1 (Some balance_change)];
         settings := AppSettings.mk true dark;
         version := Storage.CURRENT_VERSION |} in
  let result :=
    Storage.importData env (Storage.exportDataByRange 2024 1 2024 12 ls) None None merge None in
  result.1 = true
  ∧ accounts (Storage.loadData result.2) = accounts (Storage.loadData ls)
  ∧ records (Storage.loadData result.2) = [MonthlyRecord.mk "r2" "a" 2024 3 9]
  ∧ logs (Storage.loadData result.2) = logs (Storage.loadData ls).
Proof.
  pose proof (export_import_round_trip (mkEnv (λ _, "g") 0 2024 0) 2024 1 2024 12
                None None merge
                (Storage.saveData
                   {| accounts := [Account.mk "a" "Wallet" cash "banknote" 10 true false
                                     None None None None];
                      records := [MonthlyRecord.mk "r1" "a" 2023 12 7;
                                  MonthlyRecord.mk "r2" "a" 2024 3 9];
                      logs := [RecordLog.mk "l1" "a" "Wallet" 2024 3 7 9 1 (Some balance_change)];
                      settings := AppSettings.mk true dark;
                      version := Storage.CURRENT_VERSION |})
                None (or_introl eq_refl)) as H.
  exact H.
Defined.

Lemma importData_malformed_witness :
  let env := mkEnv (λ _, "g") 0 2024 0 in
  let ls := Storage.saveData Storage.defaultState in
  let payload := Parsed (Json.mk (Some []) None None None None) in
  malformed payload
  ∧ Storage.importData env payload (Some 2024) (Some 1) overwrite ls = (false, ls).
Proof.
  split; [right; reflexivity|].
  apply (importData_malformed (mkEnv (λ _, "g") 0 2024 0)
           (Parsed (Json.mk (Some []) None None None None))).
  right; reflexivity.
Defined.

(** ** Identifiers that are not in the document *)

Lemma unknownAccount_list_find id ls :
  unknownAccount id ls →
  list_find (λ a, Account.id a = id) (accounts (Storage.loadData ls)) = None.
Proof. intros Hunk. by apply list_find_unknown. Qed.

(** C3, as the code has it.  With an identifier that no account of the
    document has, [updateAccount] returns [null] and [deleteAccount]
    returns [false], both leaving the stored document as it was.
    [setMonthlyRecord] is not a no-op there: it appends no log and
    touches neither the accounts nor the settings, but it still
    upserts the record for the unknown account and returns it. *)
Theorem unknown_account_id env id ls :
  unknownAccount id ls →
  (∀ updates, Storage.updateAccount env id updates ls = (None, ls))
  ∧ Storage.deleteAccount id ls = (false, ls)
  ∧ (∀ year month balance,
       let result := Storage.setMonthlyRecord env id year month balance ls in
       let before := Storage.loadData ls in
       let after := Storage.loadData result.2 in
       MonthlyRecord.key result.1 = (id, year, month)
       ∧ MonthlyRecord.balance result.1 = balance
       ∧ result.1 ∈ records after
       ∧ accounts after = accounts before
       ∧ logs after = logs before
       ∧ settings after = settings before).
Proof.
  intros Hunk. pose proof (unknownAccount_list_find _ _ Hunk) as Hfind.
  split_and!.
  - intros updates. unfold Storage.updateAccount. by rewrite Hfind.
  - unfold Storage.deleteAccount, findIndex. by rewrite Hfind.
  - intros year month balance. unfold Storage.setMonthlyRecord, find.
    rewrite Hfind. simpl.
    destruct (list_find _ (records (Storage.loadData ls))) as [[i r]|] eqn:Hrec; simpl.
    + apply list_find_Some in Hrec as (Hi & (Ha & Hy & Hm) & _).
      rewrite loadData_saveData; simpl. split_and!; try done.
      * unfold MonthlyRecord.key; simpl. by rewrite Ha, Hy, Hm.
      * apply list_elem_of_lookup. exists i.
        apply list_lookup_insert_eq. by eapply lookup_lt_Some.
    + rewrite loadData_saveData; simpl. split_and!; try done.
      apply elem_of_app. right. by apply list_elem_of_singleton.
Qed.

Lemma unknown_account_id_witness :
  let env := mkEnv (λ _, "g") 0 2024 0 in
  unknownAccount "ghost" None
  ∧ Storage.deleteAccount "ghost" None = (false, None)
  ∧ Storage.updateAccount env "ghost" PartialAccount.empty None = (None, None).
Proof.
  assert (unknownAccount "ghost" None) as Hunk.
  { intros a Ha. by apply not_elem_of_nil in Ha. }
  split; [exact Hunk|].
  destruct (unknown_account_id (mkEnv (λ _, "g") 0 2024 0) "ghost" None Hunk)
    as (Hupdate & Hdelete & _).
  split; [exact Hdelete | exact (Hupdate PartialAccount.empty)].
Defined.

(** C3 fails for [setMonthlyRecord]: on the empty document, with the
    identifier of no account, it stores a record and returns it. *)
Lemma setMonthlyRecord_unknown_account_writes :
  let env := mkEnv (λ _, "g") 0 2024 0 in
  let result := Storage.setMonthlyRecord env "ghost" 2024 1 5 None in
  unknownAccount "ghost" None
  ∧ result.1 = MonthlyRecord.mk "g" "ghost" 2024 1 5
  ∧ records (Storage.loadData None) = []
  ∧ records (Storage.loadData result.2) = [MonthlyRecord.mk "g" "ghost" 2024 1 5]
  ∧ result.2 ≠ None.
Proof.
  split_and!; try done.
  intros a Ha. by apply not_elem_of_nil in Ha.
Qed.

(** ** Deleting a monthly record *)

Lemma list_find_split {A} (P : A → Prop) `{∀ x, Decision (P x)} (l1 l2 : list A) x :
  P x → (∀ y, y ∈ l1 → ¬ P y) → list_find P (l1 ++ x :: l2) = Some (length l1, x).
Proof.
  intros HPx Hl1. apply list_find_Some. split_and!.
  - by rewrite list_lookup_middle.
  - done.
  - intros j y Hj Hlt. apply Hl1.
    rewrite lookup_app_l in Hj by done. by eapply list_elem_of_lookup_2.
Qed.

Lemma delete_middle {A} (l1 l2 : list A) x : delete (length l1) (l1 ++ x :: l2) = l1 ++ l2.
Proof. induction l1 as [|y l1 IH]; simpl; [done | by rewrite IH]. Qed.

(** C10. [deleteMonthlyRecord] removes one record, the first whose id
    is [recordId], keeps every other record, the accounts, the logs and
    the settings, and returns [true]; when the ids of the records are
    pairwise distinct no record with that id is left.  When no record
    has that id it returns [false] and the stored document is as it
    was. *)
Theorem deleteMonthlyRecord_frame recordId ls :
  (∀ l1 r l2,
     records (Storage.loadData ls) = l1 ++ r :: l2 →
     MonthlyRecord.id r = recordId →
     (∀ x, x ∈ l1 → MonthlyRecord.id x ≠ recordId) →
     let result := Storage.deleteMonthlyRecord recordId ls in
     let before := Storage.loadData ls in
     let after := Storage.loadData result.2 in
     result.1 = true
     ∧ records after = l1 ++ l2
     ∧ accounts after = accounts before
     ∧ logs after = logs before
     ∧ settings after = settings before
     ∧ (NoDup (MonthlyRecord.id <$> records before) →
        ∀ x, x ∈ records after → MonthlyRecord.id x ≠ recordId))
  ∧ ((∀ x, x ∈ records (Storage.loadData ls) → MonthlyRecord.id x ≠ recordId) →
     Storage.deleteMonthlyRecord recordId ls = (false, ls)).
Proof.
  split.
  - intros l1 r l2 Hrecs Hid Hl1. simpl.
    unfold Storage.deleteMonthlyRecord, findIndex.
    rewrite Hrecs, (list_find_split _ l1 l2 r) by done. simpl.
    rewrite loadData_saveData; simpl. rewrite delete_middle.
    split_and!; try done.
    intros Hnodup x Hx Hxid.
    rewrite fmap_app, fmap_cons in Hnodup.
    apply NoDup_app in Hnodup as (_ & Hdisj & Hnd).
    apply NoDup_cons in Hnd as [Hnotin _].
    apply elem_of_app in Hx as [Hx | Hx].
    + by apply (Hl1 x).
    + apply Hnotin. rewrite Hid, <- Hxid. by apply list_elem_of_fmap_2.
  - intros Hnone. unfold Storage.deleteMonthlyRecord, findIndex.
    by rewrite list_find_unknown.
Qed.

Lemma deleteMonthlyRecord_frame_witness :
  let ls :=
    Storage.saveData
      {| accounts := [Account.mk "a" "Wallet" cash "banknote" 10 true false None None None None];
         records := [MonthlyRecord.mk "r1" "a" 2023 12 7; MonthlyRecord.mk "r2" "a" 2024 3 9];
         logs := [RecordLog.mk "l1" "a" "Wallet" 2024 3 7 9 1 (Some balance_change)];
         settings := AppSettings.mk true dark;
         version := Storage.CURRENT_VERSION |} in
  records (Storage.loadData (Storage.deleteMonthlyRecord "r2" ls).2)
  = [MonthlyRecord.mk "r1" "a" 2023 12 7]
  ∧ Storage.deleteMonthlyRecord "r9" ls = (false, ls).
Proof.
  intros ls.
  destruct (deleteMonthlyRecord_frame "r2" ls) as [Hfound _].
  destruct (deleteMonthlyRecord_frame "r9" ls) as [_ Hmissing].
  split.
  - refine (proj1 (proj2 (Hfound [MonthlyRecord.mk "r1" "a" 2023 12 7]
                            (MonthlyRecord.mk "r2" "a" 2024 3 9) [] eq_refl eq_refl _))).
    intros x Hx%list_elem_of_singleton. by subst x.
  - apply Hmissing. intros x Hx.
    apply elem_of_cons in Hx as [-> | Hx%list_elem_of_singleton]; [done | by subst x].
Defined.

(** ** The log of an account edit *)

(** C4, as the code has it.  When [updateAccount] finds the account
    and one of name, note, type and icon changed, the last log of the
    document is an [account_edit] log whose [oldBalance] is the balance
    the account had before the call and whose [newBalance] is the
    balance it has after the merge.  The two are equal exactly when
    the call did not change the balance. *)
Theorem account_edit_log_balances env id updates ls index oldAccount :
  list_find (λ a, Account.id a = id) (accounts (Storage.loadData ls))
    = Some (index, oldAccount) →
  Storage.infoChanged updates oldAccount = true →
  let result := Storage.updateAccount env id updates ls in
  let updated := PartialAccount.merge oldAccount updates in
  result.1 = Some updated
  ∧ ∃ log,
      last (logs (Storage.loadData result.2)) = Some log
      ∧ RecordLog.operationType log = Some account_edit
      ∧ RecordLog.accountId log = id
      ∧ RecordLog.oldBalance log = Account.balance oldAccount
      ∧ RecordLog.newBalance log = Account.balance updated
      ∧ (RecordLog.oldBalance log = RecordLog.newBalance log
         ↔ Storage.changed (PartialAccount.balance updates) (Account.balance oldAccount)
           = false).
Proof.
  intros Hfind Hinfo. simpl. unfold Storage.updateAccount.
  rewrite Hfind. simpl.
  set (P := MonthlyRecord.is_for id (Storage.currentYear env) (Storage.currentMonth env)).
  destruct (PartialAccount.balance updates) as [newBalance|] eqn:Hbal.
  - destruct (decide (newBalance ≠ Account.balance oldAccount)) as [Hne | Heq].
    + destruct (list_find P (records (Storage.loadData ls))) as [[i r]|];
        rewrite Hinfo; simpl; (split; [done|]);
        rewrite loadData_saveData; simpl; rewrite last_snoc;
        eexists; (split; [done|]); simpl; rewrite ?Hbal; simpl;
        (split_and!; try done);
        rewrite bool_decide_eq_false; (split; [intros ? ?; congruence | intros []; done]).
    + rewrite Hinfo; simpl. split; [done|].
      rewrite loadData_saveData; simpl; rewrite last_snoc.
      eexists; (split; [done|]); simpl; rewrite ?Hbal; simpl.
      split_and!; try done.
      apply dec_stable in Heq.
      rewrite bool_decide_eq_false. split; [intros ? ?; congruence | done].
  - rewrite Hinfo; simpl. split; [done|].
    rewrite loadData_saveData; simpl; rewrite last_snoc.
    eexists; (split; [done|]); simpl; rewrite ?Hbal; simpl.
    by split_and!.
Qed.

Lemma account_edit_log_balances_witness :
  let env := mkEnv (λ _, "g") 0 2024 0 in
  let result := Storage.updateAccount env "a" (renameAndSet "Purse" 100) oneAccount in
  ∃ log,
    last (logs (Storage.loadData result.2)) = Some log
    ∧ RecordLog.oldBalance log = 100 ∧ RecordLog.newBalance log = 100.
Proof.
  destruct (account_edit_log_balances (mkEnv (λ _, "g") 0 2024 0) "a"
              (renameAndSet "Purse" 100) oneAccount 0%nat
              (Account.mk "a" "Wallet" cash "banknote" 100 true false None None None None)
              eq_refl eq_refl)
    as (_ & log & Hlast & _ & _ & Hold & Hnew & _).
  exists log. split; [exact Hlast | split; [exact Hold | exact Hnew]].
Defined.

(** C4 fails when the same call changes the balance: renaming the
    account while setting its balance from [100] to [200] appends an
    [account_edit] log with old balance [100] and new balance [200],
    not both the current balance [200]. *)
Lemma account_edit_log_spans_balance_change :
  let env := mkEnv (λ k, match k with O => "g0" | 1%nat => "g1" | _ => "g2" end) 7 2024 0 in
  let result := Storage.updateAccount env "a" (renameAndSet "Purse" 200) oneAccount in
  Storage.infoChanged (renameAndSet "Purse" 200)
    (Account.mk "a" "Wallet" cash "banknote" 100 true false None None None None) = true
  ∧ Account.balance <$> result.1 = Some 200
  ∧ last (logs (Storage.loadData result.2))
    = Some (RecordLog.mk "g2" "a" "Purse" 2024 1 100 200 7 (Some account_edit)).
Proof. by vm_compute. Qed.

(** ** Percent change *)

Lemma percentOf_zero_prior change : Calculator.percentOf change 0 = Finite 0%Qc.
Proof. unfold Calculator.percentOf. by destruct (decide (0 ≠ 0)). Qed.

(** Whatever its arguments, [percentOf] divides by a non-zero number
    only, so its result is finite. *)
Lemma percentOf_finite change lastNetWorth :
  ∃ q, Calculator.percentOf change lastNetWorth = Finite q.
Proof.
  unfold Calculator.percentOf, Calculator.divide.
  destruct (decide (lastNetWorth ≠ 0)) as [Hne|]; [|by eexists].
  destruct (decide (Z.abs lastNetWorth = 0)) as [Habs|]; [lia|].
  by eexists.
Qed.

(** C8. The percent change of [getMonthlyNetWorth] and of
    [getYearlyNetWorth] is exactly [0] when the net worth of the prior
    period is [0], whatever the current net worth; and in every case
    it is a finite number, the division being made by a non-zero prior
    net worth only. *)
Theorem percent_change_zero_prior year month ls :
  (Calculator.calculateNetWorth (Calculator.previousMonth year month).1
                                (Calculator.previousMonth year month).2 ls = 0 →
   MonthlyNetWorth.changePercent (Calculator.getMonthlyNetWorth year month ls) = Finite 0%Qc)
  ∧ (Calculator.calculateNetWorth (year - 1) 12 ls = 0 →
     YearlyNetWorth.changePercent (Calculator.getYearlyNetWorth year ls) = Finite 0%Qc)
  ∧ (∃ q, MonthlyNetWorth.changePercent (Calculator.getMonthlyNetWorth year month ls)
          = Finite q)
  ∧ (∃ q, YearlyNetWorth.changePercent (Calculator.getYearlyNetWorth year ls) = Finite q).
Proof.
  unfold Calculator.getMonthlyNetWorth, Calculator.getYearlyNetWorth.
  destruct (Calculator.previousMonth year month) as [lastYear lastMonth]. simpl.
  split_and!.
  - intros ->. apply percentOf_zero_prior.
  - intros ->. apply percentOf_zero_prior.
  - apply percentOf_finite.
  - apply percentOf_finite.
Qed.

Lemma percent_change_zero_prior_witness :
  MonthlyNetWorth.netWorth (Calculator.getMonthlyNetWorth 2024 5 firstRecordInMay) = 100
  ∧ MonthlyNetWorth.changePercent (Calculator.getMonthlyNetWorth 2024 5 firstRecordInMay)
    = Finite 0%Qc
  ∧ YearlyNetWorth.netWorth (Calculator.getYearlyNetWorth 2024 firstRecordInMay) = 100
  ∧ YearlyNetWorth.changePercent (Calculator.getYearlyNetWorth 2024 firstRecordInMay)
    = Finite 0%Qc.
Proof.
  destruct (percent_change_zero_prior 2024 5 firstRecordInMay) as (Hm & Hy & _).
  split; [reflexivity|]. split; [apply Hm; reflexivity|].
  split; [reflexivity | apply Hy; reflexivity].
Defined.

(** ** What one account contributes to the totals *)

Lemma foldl_additive {A} (f : Z → A → Z) (c : A → Z) :
  (∀ t a, f t a = t + c a) →
  ∀ l1 a l2 t, foldl f t (l1 ++ a :: l2) = foldl f t (l1 ++ l2) + c a.
Proof.
  intros Hf l1 a l2 t.
  assert (∀ l t d, foldl f (t + d) l = foldl f t l + d) as Hshift.
  { clear -Hf. induction l as [|x l IH]; intros t d; simpl; [done|].
    rewrite !Hf, <- IH. f_equal. lia. }
  rewrite !foldl_app. simpl. by rewrite Hf, Hshift.
Qed.

Lemma assetsStep_additive records total account :
  Calculator.assetsStep records total account
  = total + Calculator.assetsStep records 0 account.
Proof.
  unfold Calculator.assetsStep.
  destruct (Account.isHidden account); [lia|].
  destruct (Account.type account); try lia.
  destruct (decide (Calculator.balanceOf records account < 0)); lia.
Qed.

Lemma liabilitiesStep_additive records total account :
  Calculator.liabilitiesStep records total account
  = total + Calculator.liabilitiesStep records 0 account.
Proof.
  unfold Calculator.liabilitiesStep.
  destruct (Account.isHidden account); [lia|]. simpl.
  repeat case_decide; lia.
Qed.

Lemma loanOutStep_additive records total account :
  Calculator.loanOutStep records total account
  = total + Calculator.loanOutStep records 0 account.
Proof. unfold Calculator.loanOutStep. case_decide; lia. Qed.

Lemma debtInStep_additive records total account :
  Calculator.debtInStep records total account
  = total + Calculator.debtInStep records 0 account.
Proof. unfold Calculator.debtInStep. case_decide; lia. Qed.

Lemma getAllAccounts_withAccounts accs ls :
  Storage.getAllAccounts (withAccounts accs ls) = accs.
Proof. unfold Storage.getAllAccounts, withAccounts. by rewrite loadData_saveData. Qed.

Lemma getMonthlyRecordsByMonth_withAccounts accs year month ls :
  Storage.getMonthlyRecordsByMonth year month (withAccounts accs ls)
  = Storage.getMonthlyRecordsByMonth year month ls.
Proof. unfold Storage.getMonthlyRecordsByMonth, withAccounts. by rewrite loadData_saveData. Qed.

(** Each total of the engine is the total over the other accounts plus
    what the loop body adds for the account itself. *)
Lemma totals_split year month ls l1 account l2 :
  accounts (Storage.loadData ls) = l1 ++ account :: l2 →
  let records := Storage.getMonthlyRecordsByMonth year month ls in
  let others := withAccounts (l1 ++ l2) ls in
  Calculator.calculateTotalAssets year month ls
  = Calculator.calculateTotalAssets year month others
    + Calculator.assetsStep records 0 account
  ∧ Calculator.calculateTotalLiabilities year month ls
    = Calculator.calculateTotalLiabilities year month others
      + Calculator.liabilitiesStep records 0 account
  ∧ Calculator.calculateLoanOut year month ls
    = Calculator.calculateLoanOut year month others
      + Calculator.loanOutStep records 0 account
  ∧ Calculator.calculateDebtIn year month ls
    = Calculator.calculateDebtIn year month others
      + Calculator.debtInStep records 0 account.
Proof.
  intros Haccs. simpl.
  unfold Calculator.calculateTotalAssets, Calculator.calculateTotalLiabilities,
    Calculator.calculateLoanOut, Calculator.calculateDebtIn.
  rewrite getAllAccounts_withAccounts, getMonthlyRecordsByMonth_withAccounts.
  unfold Storage.getAllAccounts at 1 2 3 4. rewrite Haccs.
  split_and!; apply foldl_additive; intros t a.
  - apply assetsStep_additive.
  - apply liabilitiesStep_additive.
  - apply loanOutStep_additive.
  - apply debtInStep_additive.
Qed.

(** C7. A credit account that is not hidden adds to the total assets
    the absolute value of its balance of the month when that balance
    is negative, and nothing otherwise; it adds to the total
    liabilities its balance when that balance is positive, and nothing
    otherwise.  So a balance of [-50] adds [50] to the assets and [0]
    to the liabilities, and a balance of [50] adds [0] and [50]. *)
Theorem credit_account_contribution year month ls l1 account l2 :
  accounts (Storage.loadData ls) = l1 ++ account :: l2 →
  Account.isHidden account = false →
  Account.type account = credit →
  let balance :=
    Calculator.balanceOf (Storage.getMonthlyRecordsByMonth year month ls) account in
  let others := withAccounts (l1 ++ l2) ls in
  let assets := Calculator.calculateTotalAssets year month in
  let liabilities := Calculator.calculateTotalLiabilities year month in
  assets ls = assets others + (if decide (balance < 0) then Z.abs balance else 0)
  ∧ liabilities ls = liabilities others + (if decide (0 < balance) then balance else 0)
  ∧ (balance = -50 → assets ls = assets others + 50 ∧ liabilities ls = liabilities others + 0)
  ∧ (balance = 50 → assets ls = assets others + 0 ∧ liabilities ls = liabilities others + 50).
Proof.
  intros Haccs Hvisible Hcredit. simpl.
  destruct (totals_split year month ls l1 account l2 Haccs) as (Hassets & Hliab & _).
  rewrite Hassets, Hliab.
  unfold Calculator.assetsStep, Calculator.liabilitiesStep.
  rewrite Hvisible, Hcredit. simpl.
  set (balance := Calculator.balanceOf _ account).
  assert (credit ≠ debt) as Hcd by done.
  split_and!.
  - case_decide; lia.
  - repeat case_decide; try lia; naive_solver.
  - intros ->. split; repeat case_decide; try lia; naive_solver lia.
  - intros ->. split; repeat case_decide; try lia; naive_solver lia.
Qed.

Lemma credit_account_contribution_witness :
  (Calculator.calculateTotalAssets 2024 3 walletAndCard = 1000 + 50
   ∧ Calculator.calculateTotalLiabilities 2024 3 walletAndCard = 0 + 0)
  ∧ (Calculator.calculateTotalAssets 2024 4 walletAndCard = 1000 + 0
     ∧ Calculator.calculateTotalLiabilities 2024 4 walletAndCard = 0 + 50).
Proof.
  split.
  - exact (proj1 (proj2 (proj2
      (credit_account_contribution 2024 3 walletAndCard [walletAccount] cardAccount []
         eq_refl eq_refl eq_refl))) eq_refl).
  - exact (proj2 (proj2 (proj2
      (credit_account_contribution 2024 4 walletAndCard [walletAccount] cardAccount []
         eq_refl eq_refl eq_refl))) eq_refl).
Defined.

(** ** Hidden accounts *)

(** A hidden account adds nothing to the total assets, to the total
    liabilities and to the net worth: they are what they would be
    without the account. *)
Lemma hidden_excluded_from_net_worth year month ls l1 account l2 :
  accounts (Storage.loadData ls) = l1 ++ account :: l2 →
  Account.isHidden account = true →
  let others := withAccounts (l1 ++ l2) ls in
  Calculator.calculateTotalAssets year month ls
  = Calculator.calculateTotalAssets year month others
  ∧ Calculator.calculateTotalLiabilities year month ls
    = Calculator.calculateTotalLiabilities year month others
  ∧ Calculator.calculateNetWorth year month ls
    = Calculator.calculateNetWorth year month others.
Proof.
  intros Haccs Hhidden. simpl. unfold Calculator.calculateNetWorth.
  destruct (totals_split year month ls l1 account l2 Haccs) as (Hassets & Hliab & _).
  rewrite Hassets, Hliab.
  unfold Calculator.assetsStep, Calculator.liabilitiesStep. rewrite Hhidden.
  split_and!; lia.
Qed.

(** The loan-out and debt-in totals do not look at [isHidden]: a
    loan account adds its balance and a debt account the absolute value
    of its balance, hidden or not. *)
Lemma loan_and_debt_totals_count_hidden year month ls l1 account l2 :
  accounts (Storage.loadData ls) = l1 ++ account :: l2 →
  let balance :=
    Calculator.balanceOf (Storage.getMonthlyRecordsByMonth year month ls) account in
  let others := withAccounts (l1 ++ l2) ls in
  (Account.type account = loan →
   Calculator.calculateLoanOut year month ls
   = Calculator.calculateLoanOut year month others + balance)
  ∧ (Account.type account = debt →
     Calculator.calculateDebtIn year month ls
     = Calculator.calculateDebtIn year month others + Z.abs balance).
Proof.
  intros Haccs. simpl.
  destruct (totals_split year month ls l1 account l2 Haccs) as (_ & _ & Hloan & Hdebt).
  rewrite Hloan, Hdebt. unfold Calculator.loanOutStep, Calculator.debtInStep.
  split; intros ->; by rewrite decide_True.
Qed.

(** C1 at a document whose two accounts are both hidden: the total
    assets, the total liabilities and the net worth are [0], as they
    are with no account at all, but the loan-out total is [100] and
    the debt-in total is [30]; without the accounts both are [0]. *)
Theorem hidden_accounts_counted_in_loan_and_debt_totals :
  Forall (λ a, Account.isHidden a = true) (Storage.getAllAccounts hiddenLoanAndDebt)
  ∧ Calculator.calculateTotalAssets 2024 1 hiddenLoanAndDebt = 0
  ∧ Calculator.calculateTotalLiabilities 2024 1 hiddenLoanAndDebt = 0
  ∧ Calculator.calculateNetWorth 2024 1 hiddenLoanAndDebt = 0
  ∧ Calculator.calculateLoanOut 2024 1 hiddenLoanAndDebt = 100
  ∧ Calculator.calculateDebtIn 2024 1 hiddenLoanAndDebt = 30
  ∧ Calculator.calculateLoanOut 2024 1 (withAccounts [] hiddenLoanAndDebt) = 0
  ∧ Calculator.calculateDebtIn 2024 1 (withAccounts [] hiddenLoanAndDebt) = 0.
Proof.
  split; [by repeat constructor|]. by vm_compute.
Qed.

(** ** Find-or-create on the records *)

Lemma is_for_key a y m r : MonthlyRecord.is_for a y m r ↔ MonthlyRecord.key r = (a, y, m).
Proof.
  unfold MonthlyRecord.is_for, MonthlyRecord.key. split.
  - by intros (-> & -> & ->).
  - intros [= -> -> ->]. done.
Qed.

Lemma key_set_balance b r : MonthlyRecord.key (MonthlyRecord.set_balance b r) = MonthlyRecord.key r.
Proof. done. Qed.

Lemma keys_set_balance (rs : list MonthlyRecord.t) i r b :
  rs !! i = Some r →
  MonthlyRecord.key <$> <[i := MonthlyRecord.set_balance b r]> rs = MonthlyRecord.key <$> rs.
Proof.
  intros Hi. rewrite list_fmap_insert, key_set_balance.
  apply list_insert_id. by rewrite list_lookup_fmap, Hi.
Qed.

Lemma list_find_is_for_None a y m (rs : list MonthlyRecord.t) :
  list_find (MonthlyRecord.is_for a y m) rs = None ↔ (a, y, m) ∉ MonthlyRecord.key <$> rs.
Proof.
  rewrite list_find_None, Forall_forall. split.
  - intros Hnone (r & Hkey & Hr)%list_elem_of_fmap.
    apply (Hnone r Hr). by apply is_for_key.
  - intros Hnotin r Hr Hfor%is_for_key. apply Hnotin.
    rewrite <- Hfor. by apply list_elem_of_fmap_2.
Qed.

Lemma uniqueRecords_snoc rs r :
  uniqueRecords rs → MonthlyRecord.key r ∉ MonthlyRecord.key <$> rs → uniqueRecords (rs ++ [r]).
Proof.
  unfold uniqueRecords. intros Hnd Hnotin. rewrite fmap_app. apply NoDup_app.
  split_and!; [done | | apply NoDup_singleton].
  intros k Hk ->%list_elem_of_singleton. done.
Qed.

Lemma upsertRecord_keys newId a y m b rs :
  MonthlyRecord.key <$> upsertRecord newId a y m b rs
  = match list_find (MonthlyRecord.is_for a y m) rs with
    | Some _ => MonthlyRecord.key <$> rs
    | None => (MonthlyRecord.key <$> rs) ++ [(a, y, m)]
    end.
Proof.
  unfold upsertRecord.
  destruct (list_find _ rs) as [[i r]|] eqn:Hfind.
  - apply list_find_Some in Hfind as (Hi & _ & _). by apply keys_set_balance.
  - by rewrite fmap_app.
Qed.

Lemma upsertRecord_unique newId a y m b rs :
  uniqueRecords rs → uniqueRecords (upsertRecord newId a y m b rs).
Proof.
  intros Hnd. unfold uniqueRecords. rewrite upsertRecord_keys.
  destruct (list_find _ rs) as [[i r]|] eqn:Hfind; [done|].
  apply list_find_is_for_None in Hfind.
  apply NoDup_app. split_and!; [done | | apply NoDup_singleton].
  intros k Hk ->%list_elem_of_singleton. done.
Qed.

(** After the upsert the coordinates have a record, with the balance
    that was written. *)
Lemma upsertRecord_find newId a y m b rs :
  ∃ r', find (MonthlyRecord.is_for a y m) (upsertRecord newId a y m b rs) = Some r'
        ∧ MonthlyRecord.balance r' = b.
Proof.
  unfold upsertRecord, find.
  destruct (list_find _ rs) as [[i r]|] eqn:Hfind.
  - exists (MonthlyRecord.set_balance b r). split; [|done].
    apply list_find_Some in Hfind as (Hi & Hfor & Hfirst).
    assert (list_find (MonthlyRecord.is_for a y m)
              (<[i := MonthlyRecord.set_balance b r]> rs)
            = Some (i, MonthlyRecord.set_balance b r)) as ->; [|done].
    apply list_find_Some. split_and!.
    + apply list_lookup_insert_eq. by eapply lookup_lt_Some.
    + done.
    + intros j x Hj Hlt. rewrite list_lookup_insert_ne in Hj by lia. by eapply Hfirst.
  - exists (MonthlyRecord.mk newId a y m b). split; [|done].
    rewrite list_find_app_r by done. simpl.
    by rewrite decide_True.
Qed.

(** Other coordinates are looked up as before. *)
Lemma upsertRecord_find_other newId a y m b a' y' m' rs :
  (a', y', m') ≠ (a, y, m) →
  find (MonthlyRecord.is_for a' y' m') (upsertRecord newId a y m b rs)
  = find (MonthlyRecord.is_for a' y' m') rs.
Proof.
  intros Hne. unfold upsertRecord, find.
  destruct (list_find (MonthlyRecord.is_for a y m) rs) as [[i r]|] eqn:Hfind.
  - apply list_find_Some in Hfind as (Hi & Hfor & _).
    assert (¬ MonthlyRecord.is_for a' y' m' r) as Hr.
    { intros Hfor'. apply is_for_key in Hfor, Hfor'. congruence. }
    destruct (list_find (MonthlyRecord.is_for a' y' m') rs) as [[j x]|] eqn:Hfind'.
    + apply list_find_Some in Hfind' as (Hj & Hfor' & Hfirst).
      assert (i ≠ j) as Hij by (intros ->; congruence).
      assert (list_find (MonthlyRecord.is_for a' y' m')
                (<[i := MonthlyRecord.set_balance b r]> rs) = Some (j, x)) as ->; [|done].
      apply list_find_Some. split_and!.
      * by rewrite list_lookup_insert_ne.
      * done.
      * intros k z Hk Hlt. destruct (decide (k = i)) as [-> | Hki].
        -- rewrite list_lookup_insert_eq in Hk by (by eapply lookup_lt_Some).
           injection Hk as <-. done.
        -- rewrite list_lookup_insert_ne in Hk by done. by eapply Hfirst.
    + assert (list_find (MonthlyRecord.is_for a' y' m')
                (<[i := MonthlyRecord.set_balance b r]> rs) = None) as ->; [|done].
      apply list_find_None, Forall_forall. intros z Hz.
      apply list_elem_of_lookup in Hz as [k Hk].
      destruct (decide (k = i)) as [-> | Hki].
      * rewrite list_lookup_insert_eq in Hk by (by eapply lookup_lt_Some).
        injection Hk as <-. done.
      * rewrite list_lookup_insert_ne in Hk by done.
        apply list_find_None in Hfind'. rewrite Forall_forall in Hfind'.
        apply Hfind'. by eapply list_elem_of_lookup_2.
  - destruct (list_find (MonthlyRecord.is_for a' y' m') rs) as [[j x]|] eqn:Hfind'.
    + by erewrite list_find_app_l.
    + rewrite list_find_app_r by done. simpl.
      rewrite decide_False; [done|].
      intros Hfor%is_for_key. apply Hne. by rewrite <- Hfor.
Qed.

(** Records of other coordinates stay where they are. *)
Lemma upsertRecord_lookup_other newId a y m b (rs : list MonthlyRecord.t) j r :
  rs !! j = Some r → ¬ MonthlyRecord.is_for a y m r →
  upsertRecord newId a y m b rs !! j = Some r.
Proof.
  intros Hj Hnot. unfold upsertRecord.
  destruct (list_find _ rs) as [[i x]|] eqn:Hfind.
  - apply list_find_Some in Hfind as (Hi & Hfor & _).
    rewrite list_lookup_insert_ne; [done|]. intros ->. congruence.
  - by apply lookup_app_l_Some.
Qed.

(** ** The loop of [copyLastMonthBalances] *)

Lemma positions_snoc {A} (P : A → Prop) `{∀ x, Decision (P x)} (l : list A) x :
  Calculator.positions P (l ++ [x])
  = Calculator.positions P l ++ (if decide (P x) then [length l] else []).
Proof.
  unfold Calculator.positions. rewrite imap_app, filter_app, fmap_app. f_equal.
  simpl. rewrite filter_cons, filter_nil. simpl.
  destruct (decide (P x)); simpl; [|done]. by rewrite Nat.add_0_r.
Qed.

(** The positions kept by [positions] are those of the elements kept
    by [filter], in the same order. *)
Lemma positions_filter {A} (P : A → Prop) `{∀ x, Decision (P x)} (l : list A) :
  Forall2 (λ j v, l !! j = Some v ∧ P v) (Calculator.positions P l) (filter P l).
Proof.
  induction l as [|x l IH] using rev_ind; [constructor|].
  rewrite positions_snoc, filter_app. apply Forall2_app.
  - eapply Forall2_impl; [exact IH|]. intros j v [Hj HP]. split; [|done].
    by apply lookup_app_l_Some.
  - rewrite filter_cons, filter_nil. destruct (decide (P x)); constructor; [|constructor].
    split; [|done]. by rewrite list_lookup_middle.
Qed.

Lemma copyStep_value env year month recs k j record :
  recs !! j = Some record →
  Calculator.copyStep env year month (recs, k) j
  = copyValueStep env year month (recs, k) record.
Proof.
  intros Hj. unfold Calculator.copyStep, copyValueStep, upsertRecord. rewrite Hj. simpl.
  by destruct (list_find _ recs) as [[i r]|].
Qed.

(** A turn never changes a record of another month than the target
    one, so the records of last month that are still to be copied are
    read as they were when the loop started. *)
Lemma copy_loop_by_value env year month js :
  ∀ vs recs k,
    Forall2 (λ j v, recs !! j = Some v
                    ∧ ¬ (MonthlyRecord.year v = year ∧ MonthlyRecord.month v = month))
            js vs →
    foldl (Calculator.copyStep env year month) (recs, k) js
    = foldl (copyValueStep env year month) (recs, k) vs.
Proof.
  induction js as [|j js IH]; intros vs recs k Hjs.
  - by apply Forall2_nil_inv_l in Hjs as ->.
  - apply Forall2_cons_inv_l in Hjs as (v & vs' & [Hj Hv] & Hjs & ->).
    cbn [foldl]. rewrite (copyStep_value _ _ _ _ _ _ _ Hj).
    destruct (copyValueStep env year month (recs, k) v) as [recs' k'] eqn:Hstep.
    injection Hstep as <- _. apply IH.
    eapply Forall2_impl; [exact Hjs|]. intros j' v' [Hj' Hv']. split; [|done].
    apply upsertRecord_lookup_other; [done|].
    intros (_ & Hy & Hm). by apply Hv'.
Qed.

Lemma previousMonth_differs year month :
  ¬ ((Calculator.previousMonth year month).1 = year
     ∧ (Calculator.previousMonth year month).2 = month).
Proof. unfold Calculator.previousMonth. case_decide; simpl; lia. Qed.

(** The records and the accounts, logs and settings that
    [copyLastMonthBalances] leaves. *)
Lemma copyLastMonthBalances_load env year month ls :
  let before := Storage.loadData ls in
  let after := Storage.loadData (Calculator.copyLastMonthBalances env year month ls) in
  let lastMonthRecords :=
    filter (λ r, MonthlyRecord.year r = (Calculator.previousMonth year month).1
                 ∧ MonthlyRecord.month r = (Calculator.previousMonth year month).2)
           (records before) in
  records after = (foldl (copyValueStep env year month) (records before, 0%nat)
                         lastMonthRecords).1
  ∧ accounts after = accounts before
  ∧ logs after = logs before
  ∧ settings after = settings before.
Proof.
  simpl. unfold Calculator.copyLastMonthBalances.
  pose proof (previousMonth_differs year month) as Hdiff.
  destruct (Calculator.previousMonth year month) as [lastYear lastMonth]. simpl in *.
  rewrite (copy_loop_by_value env year month _
             (filter (λ r, MonthlyRecord.year r = lastYear ∧ MonthlyRecord.month r = lastMonth)
                     (records (Storage.loadData ls)))).
  - destruct (foldl _ _ _) as [records' k]. by rewrite loadData_calculator_saveData.
  - eapply Forall2_impl; [apply positions_filter|].
    intros j v [Hj [Hy Hm]]. split; [done|]. intros [Hy' Hm'].
    apply Hdiff. split; congruence.
Qed.

Lemma copy_fold_unique env year month vs :
  ∀ st, uniqueRecords st.1 → uniqueRecords (foldl (copyValueStep env year month) st vs).1.
Proof.
  induction vs as [|v vs IH]; intros st Hst; [done|].
  cbn [foldl]. apply IH. unfold copyValueStep. simpl. by apply upsertRecord_unique.
Qed.

Lemma copy_fold_lookup_other env year month vs :
  ∀ st i r,
    st.1 !! i = Some r →
    ¬ (MonthlyRecord.year r = year ∧ MonthlyRecord.month r = month) →
    (foldl (copyValueStep env year month) st vs).1 !! i = Some r.
Proof.
  induction vs as [|v vs IH]; intros st i r Hi Hr; [done|].
  cbn [foldl]. apply IH; [|done]. unfold copyValueStep. simpl.
  apply upsertRecord_lookup_other; [done|]. intros (_ & Hy & Hm). by apply Hr.
Qed.

(** After the loop the target month holds, for an account, the balance
    of the last record copied for it; an account for which nothing was
    copied is as before. *)
Lemma copy_fold_find env year month a vs :
  ∀ st,
    let result := (foldl (copyValueStep env year month) st vs).1 in
    match last (filter (λ v, MonthlyRecord.accountId v = a) vs) with
    | Some v =>
        ∃ r', find (MonthlyRecord.is_for a year month) result = Some r'
              ∧ MonthlyRecord.balance r' = MonthlyRecord.balance v
    | None =>
        find (MonthlyRecord.is_for a year month) result
        = find (MonthlyRecord.is_for a year month) st.1
    end.
Proof.
  induction vs as [|v vs IH] using rev_ind; intros st; simpl; [done|].
  rewrite foldl_snoc, filter_app, filter_cons, filter_nil.
  unfold copyValueStep at 1. simpl.
  destruct (decide (MonthlyRecord.accountId v = a)) as [<- | Hne].
  - rewrite last_snoc. apply upsertRecord_find.
  - rewrite app_nil_r, upsertRecord_find_other by congruence. apply IH.
Qed.

Lemma NoDup_fmap_elem_inj {A B} (f : A → B) (l : list A) x y :
  NoDup (f <$> l) → x ∈ l → y ∈ l → f x = f y → x = y.
Proof.
  intros Hnd [i Hi]%list_elem_of_lookup [j Hj]%list_elem_of_lookup Hf.
  assert (i = j) as ->; [|congruence].
  eapply NoDup_lookup; [exact Hnd| |].
  - by rewrite list_lookup_fmap, Hi.
  - by rewrite list_lookup_fmap, Hj, Hf.
Qed.

(** Each turn of the loop leaves, at the target month, a record for the
    account of the record it copies, with that record's balance. *)
Lemma copy_turn_upserts env year month (rs : list MonthlyRecord.t) js j js' r :
  Calculator.positions
    (λ r, MonthlyRecord.year r = (Calculator.previousMonth year month).1
          ∧ MonthlyRecord.month r = (Calculator.previousMonth year month).2) rs
  = js ++ j :: js' →
  rs !! j = Some r →
  let turn :=
    Calculator.copyStep env year month
      (foldl (Calculator.copyStep env year month) (rs, 0%nat) js) j in
  ∃ r', find (MonthlyRecord.is_for (MonthlyRecord.accountId r) year month) turn.1 = Some r'
        ∧ MonthlyRecord.balance r' = MonthlyRecord.balance r.
Proof.
  intros Hpos Hj. simpl.
  pose proof (previousMonth_differs year month) as Hdiff.
  pose proof (positions_filter
                (λ r, MonthlyRecord.year r = (Calculator.previousMonth year month).1
                      ∧ MonthlyRecord.month r = (Calculator.previousMonth year month).2) rs)
    as HF.
  rewrite Hpos in HF.
  apply Forall2_app_inv_l in HF as (vs1 & vs2 & HF1 & HF2 & _).
  apply Forall2_cons_inv_l in HF2 as (v & vs2' & [Hj' [Hvy Hvm]] & _ & _).
  assert (v = r) as -> by congruence.
  assert (¬ (MonthlyRecord.year r = year ∧ MonthlyRecord.month r = month)) as Hr.
  { intros [Hy Hm]. apply Hdiff. split; congruence. }
  rewrite (copy_loop_by_value env year month js vs1).
  - pose proof (copy_fold_lookup_other env year month vs1 (rs, 0%nat) j r Hj Hr) as Hcur.
    destruct (foldl (copyValueStep env year month) (rs, 0%nat) vs1) as [recs k].
    rewrite (copyStep_value _ _ _ _ _ _ _ Hcur). unfold copyValueStep. simpl.
    apply upsertRecord_find.
  - eapply Forall2_impl; [exact HF1|].
    intros j0 v0 [Hj0 [Hy0 Hm0]]. split; [done|]. intros [Hy Hm].
    apply Hdiff. split; congruence.
Qed.

(** ** Copying last month's balances *)

(** C9. [copyLastMonthBalances] leaves the accounts, the logs and the
    settings as they were, and appends no log.  For each record of the
    preceding month, taken in the order of the array, the turn of the
    loop that copies it leaves at [(year, month)] a record with the
    same account and the same balance.  So after the call every
    account that has a record in the preceding month has a record in
    [(year, month)], holding the balance of the last record of the
    preceding month for that account; with at most one record per
    (account, year, month), that is the balance of each record of the
    preceding month.  Records of other months are as they were. *)
Theorem copyLastMonthBalances_silent env year month ls :
  let before := Storage.loadData ls in
  let stored := Calculator.copyLastMonthBalances env year month ls in
  let after := Storage.loadData stored in
  let lastMonthRecords :=
    filter (λ r, MonthlyRecord.year r = (Calculator.previousMonth year month).1
                 ∧ MonthlyRecord.month r = (Calculator.previousMonth year month).2)
           (records before) in
  accounts after = accounts before
  ∧ logs after = logs before
  ∧ settings after = settings before
  ∧ (∀ js j js' r,
       Calculator.positions
         (λ r, MonthlyRecord.year r = (Calculator.previousMonth year month).1
               ∧ MonthlyRecord.month r = (Calculator.previousMonth year month).2)
         (records before) = js ++ j :: js' →
       records before !! j = Some r →
       let turn :=
         Calculator.copyStep env year month
           (foldl (Calculator.copyStep env year month) (records before, 0%nat) js) j in
       ∃ r', find (MonthlyRecord.is_for (MonthlyRecord.accountId r) year month) turn.1
             = Some r'
             ∧ MonthlyRecord.balance r' = MonthlyRecord.balance r)
  ∧ (∀ r, r ∈ lastMonthRecords →
       ∃ r', Storage.getMonthlyRecord (MonthlyRecord.accountId r) year month stored = Some r'
             ∧ Some (MonthlyRecord.balance r')
               = MonthlyRecord.balance <$>
                   last (filter (λ v, MonthlyRecord.accountId v = MonthlyRecord.accountId r)
                                lastMonthRecords))
  ∧ (uniqueRecords (records before) →
     ∀ r, r ∈ lastMonthRecords →
       ∃ r', Storage.getMonthlyRecord (MonthlyRecord.accountId r) year month stored = Some r'
             ∧ MonthlyRecord.accountId r' = MonthlyRecord.accountId r
             ∧ MonthlyRecord.balance r' = MonthlyRecord.balance r)
  ∧ (∀ i r, records before !! i = Some r →
       ¬ (MonthlyRecord.year r = year ∧ MonthlyRecord.month r = month) →
       records after !! i = Some r).
Proof.
  simpl.
  destruct (copyLastMonthBalances_load env year month ls) as (Hrecs & Haccs & Hlogs & Hsets).
  set (lastMonthRecords := filter _ (records (Storage.loadData ls))) in *.
  assert (∀ r, r ∈ lastMonthRecords →
            ∃ r' v, Storage.getMonthlyRecord (MonthlyRecord.accountId r) year month
                      (Calculator.copyLastMonthBalances env year month ls) = Some r'
                    ∧ last (filter (λ v, MonthlyRecord.accountId v = MonthlyRecord.accountId r)
                                   lastMonthRecords) = Some v
                    ∧ MonthlyRecord.balance r' = MonthlyRecord.balance v) as Hcopy.
  { intros r Hr. unfold Storage.getMonthlyRecord. rewrite Hrecs.
    pose proof (copy_fold_find env year month (MonthlyRecord.accountId r) lastMonthRecords
                  (records (Storage.loadData ls), 0%nat)) as Hfind.
    simpl in Hfind.
    destruct (last (filter _ lastMonthRecords)) as [v|] eqn:Hlast.
    - destruct Hfind as (r' & Hr' & Hb). by exists r', v.
    - apply last_None in Hlast.
      by apply (filter_nil_not_elem_of _ _ r) in Hlast. }
  split_and!; try done.
  - intros js j js' r Hpos Hj. by apply copy_turn_upserts with js'.
  - intros r Hr. destruct (Hcopy r Hr) as (r' & v & Hr' & Hlast & Hb).
    exists r'. split; [done|]. by rewrite Hlast, Hb.
  - intros Hunique r Hr. destruct (Hcopy r Hr) as (r' & v & Hr' & Hlast & Hb).
    exists r'. split; [done|].
    assert (v = r) as ->.
    { apply last_Some_elem_of, list_elem_of_filter in Hlast as [Hacc Hv].
      apply list_elem_of_filter in Hv as [[Hvy Hvm] Hv].
      apply list_elem_of_filter in Hr as [[Hry Hrm] Hr].
      apply (NoDup_fmap_elem_inj MonthlyRecord.key _ _ _ Hunique Hv Hr).
      unfold MonthlyRecord.key. congruence. }
    split; [|done].
    unfold Storage.getMonthlyRecord, find in Hr'.
    destruct (list_find _ _) as [[i x]|] eqn:Hfind; [|done].
    injection Hr' as ->. by apply list_find_Some in Hfind as (_ & (Ha & _) & _).
  - intros i r Hi Hr. rewrite Hrecs. by apply copy_fold_lookup_other.
Qed.

(** ** At most one record per account and month *)

Lemma setMonthlyRecord_found env a y m b ls i r :
  list_find (MonthlyRecord.is_for a y m) (records (Storage.loadData ls)) = Some (i, r) →
  let result := Storage.setMonthlyRecord env a y m b ls in
  result.1 = MonthlyRecord.set_balance b r
  ∧ records (Storage.loadData result.2)
    = <[i := MonthlyRecord.set_balance b r]> (records (Storage.loadData ls)).
Proof.
  intros Hfind. simpl. unfold Storage.setMonthlyRecord. rewrite Hfind.
  destruct (find _ (accounts (Storage.loadData ls))) as [account|];
    [destruct (decide (MonthlyRecord.balance r ≠ b))|];
    simpl; by rewrite loadData_saveData.
Qed.

Lemma setMonthlyRecord_upsert env a y m b ls :
  let result := Storage.setMonthlyRecord env a y m b ls in
  records (Storage.loadData result.2)
  = upsertRecord (MonthlyRecord.id result.1) a y m b (records (Storage.loadData ls))
  ∧ ∃ i, list_find (MonthlyRecord.is_for a y m) (records (Storage.loadData result.2))
         = Some (i, result.1).
Proof.
  simpl.
  destruct (list_find (MonthlyRecord.is_for a y m) (records (Storage.loadData ls)))
    as [[i r]|] eqn:Hfind.
  - destruct (setMonthlyRecord_found env a y m b ls i r Hfind) as [-> ->].
    unfold upsertRecord. rewrite Hfind. split; [done|]. exists i.
    apply list_find_Some in Hfind as (Hi & Hfor & Hfirst).
    apply list_find_Some. split_and!.
    + apply list_lookup_insert_eq. by eapply lookup_lt_Some.
    + done.
    + intros j x Hj Hlt. rewrite list_lookup_insert_ne in Hj by lia. by eapply Hfirst.
  - unfold Storage.setMonthlyRecord, upsertRecord. rewrite Hfind.
    destruct (find _ (accounts (Storage.loadData ls))) as [account|];
      [destruct (decide (from_option Account.balance 0 (Some account) ≠ b))|];
      simpl; rewrite loadData_saveData; simpl; (split; [done|]);
      exists (length (records (Storage.loadData ls)));
      (apply list_find_split; [done|]);
      intros x Hx; apply list_find_None in Hfind; rewrite Forall_forall in Hfind;
      by apply Hfind.
Qed.

Lemma updateAccount_records env id updates ls :
  let rs := records (Storage.loadData ls) in
  let rs' := records (Storage.loadData (Storage.updateAccount env id updates ls).2) in
  rs' = rs
  ∨ ∃ newId b, rs' = upsertRecord newId id (Storage.currentYear env)
                       (Storage.currentMonth env) b rs.
Proof.
  simpl. unfold Storage.updateAccount.
  destruct (list_find _ (accounts (Storage.loadData ls))) as [[index found]|]; [|by left].
  destruct (PartialAccount.balance updates) as [newBalance|].
  - destruct (decide (newBalance ≠ Account.balance found)).
    + right. exists (generateId env 0), newBalance. unfold upsertRecord.
      destruct (list_find _ (records (Storage.loadData ls))) as [[i r]|];
        simpl; by rewrite loadData_saveData.
    + left. simpl. by rewrite loadData_saveData.
  - left. simpl. by rewrite loadData_saveData.
Qed.

Lemma addAccount_records env account ls :
  let rs := records (Storage.loadData ls) in
  let rs' := records (Storage.loadData (Storage.addAccount env account ls).2) in
  rs' = rs
  ∨ rs' = rs ++ [MonthlyRecord.mk (generateId env 1) (generateId env 0)
                   (Storage.currentYear env) (Storage.currentMonth env)
                   (Account.balance account)].
Proof.
  simpl. unfold Storage.addAccount.
  destruct (decide (Account.balance (Account.with_id (generateId env 0) account) ≠ 0));
    simpl; rewrite loadData_saveData; simpl; [by right | by left].
Qed.

(** C2, as the code has it.  On a document with at most one record per
    (account, year, month), [updateAccount], [setMonthlyRecord] and
    [copyLastMonthBalances] leave such a document, and so does
    [addAccount] when the identifier it generates is the account of no
    record.  [importData] has no find-or-create: with no target period
    it stores the records of the payload as they are, so the document
    it leaves has the property exactly when the payload has it.  A
    second [setMonthlyRecord] on the same coordinates writes the record
    of the first in place: the coordinates of the records are the same
    list, and the record has the same identifier and the new balance. *)
Theorem uniqueRecords_preserved env ls :
  uniqueRecords (records (Storage.loadData ls)) →
  (∀ account,
     (∀ r, r ∈ records (Storage.loadData ls) → MonthlyRecord.accountId r ≠ generateId env 0) →
     uniqueRecords (records (Storage.loadData (Storage.addAccount env account ls).2)))
  ∧ (∀ id updates,
       uniqueRecords (records (Storage.loadData (Storage.updateAccount env id updates ls).2)))
  ∧ (∀ a y m b,
       uniqueRecords (records (Storage.loadData (Storage.setMonthlyRecord env a y m b ls).2)))
  ∧ (∀ y m,
       uniqueRecords (records (Storage.loadData (Calculator.copyLastMonthBalances env y m ls))))
  ∧ (∀ data dataAccounts dataRecords targetYear targetMonth mergeMode,
       Json.accounts data = Some dataAccounts →
       Json.records data = Some dataRecords →
       targetYear = None ∨ targetMonth = None →
       uniqueRecords
         (records (Storage.loadData
            (Storage.importData env (Parsed data) targetYear targetMonth mergeMode ls).2))
       ↔ uniqueRecords dataRecords)
  ∧ (∀ env' a y m b b',
       let first := Storage.setMonthlyRecord env a y m b ls in
       let second := Storage.setMonthlyRecord env' a y m b' first.2 in
       MonthlyRecord.key <$> records (Storage.loadData second.2)
       = MonthlyRecord.key <$> records (Storage.loadData first.2)
       ∧ MonthlyRecord.id second.1 = MonthlyRecord.id first.1
       ∧ MonthlyRecord.balance second.1 = b'
       ∧ Storage.getMonthlyRecord a y m second.2 = Some second.1).
Proof.
  intros Hunique. split_and!.
  - intros account Hfresh.
    destruct (addAccount_records env account ls) as [-> | ->]; [done|].
    apply uniqueRecords_snoc; [done|].
    intros (r & Hkey & Hr)%list_elem_of_fmap. apply (Hfresh r Hr).
    unfold MonthlyRecord.key in Hkey. simpl in Hkey. congruence.
  - intros id updates.
    destruct (updateAccount_records env id updates ls) as [-> | (newId & b & ->)];
      [done | by apply upsertRecord_unique].
  - intros a y m b.
    destruct (setMonthlyRecord_upsert env a y m b ls) as [-> _].
    by apply upsertRecord_unique.
  - intros y m.
    destruct (copyLastMonthBalances_load env y m ls) as (-> & _).
    by apply copy_fold_unique.
  - intros data dataAccounts dataRecords targetYear targetMonth mergeMode Ha Hr Hnone.
    unfold Storage.importData. rewrite Ha, Hr.
    destruct Hnone as [-> | ->]; [|destruct targetYear];
      simpl; by rewrite loadData_saveData.
  - intros env' a y m b b'. simpl.
    destruct (setMonthlyRecord_upsert env a y m b ls) as [_ [i Hfind]].
    destruct (setMonthlyRecord_found env' a y m b' _ i _ Hfind) as [Hsecond Hrecs].
    destruct (setMonthlyRecord_upsert env' a y m b'
                (Storage.setMonthlyRecord env a y m b ls).2) as [_ [j Hfind']].
    rewrite Hrecs, Hsecond. split_and!; try done.
    + apply keys_set_balance. by apply list_find_Some in Hfind as (Hi & _).
    + unfold Storage.getMonthlyRecord, find. rewrite Hfind'. simpl. by rewrite Hsecond.
Qed.

(** What [importData] does keep: in overwrite mode it first drops the
    records of the target month, so a payload with at most one record
    per account leaves at most one record per (account, year, month). *)
Lemma importData_overwrite_unique env data dataAccounts dataRecords targetYear targetMonth ls :
  Json.accounts data = Some dataAccounts →
  Json.records data = Some dataRecords →
  uniqueRecords (records (Storage.loadData ls)) →
  NoDup (MonthlyRecord.accountId <$> dataRecords) →
  uniqueRecords
    (records (Storage.loadData
       (Storage.importData env (Parsed data) (Some targetYear) (Some targetMonth)
          overwrite ls).2)).
Proof.
  intros Ha Hr Hunique Hpayload. unfold Storage.importData. rewrite Ha, Hr. simpl.
  rewrite loadData_saveData. simpl. unfold uniqueRecords. rewrite fmap_app.
  assert (MonthlyRecord.key <$> Storage.redateRecords env 0 targetYear targetMonth dataRecords
          = (λ a, (a, targetYear, targetMonth)) <$> (MonthlyRecord.accountId <$> dataRecords))
    as ->.
  { unfold Storage.redateRecords. rewrite fmap_imap, <- list_fmap_compose.
    rewrite <- imap_const. by apply imap_ext. }
  apply NoDup_app. split_and!.
  - eapply sublist_NoDup; [exact Hunique|]. apply fmap_sublist, sublist_filter.
  - intros k (r & -> & Hin)%list_elem_of_fmap (a & Hk & _)%list_elem_of_fmap.
    apply list_elem_of_filter in Hin as [Hnot _]. apply Hnot.
    unfold MonthlyRecord.key in Hk. by injection Hk as _ -> ->.
  - apply NoDup_fmap_2_strong; [|done]. by intros a a' _ _ [= ->].
Qed.

Lemma aprilAndMay_unique : uniqueRecords (records (Storage.loadData aprilAndMay)).
Proof. apply (bool_decide_unpack _). by vm_compute. Qed.

Lemma copyLastMonthBalances_silent_witness :
  let stored := Calculator.copyLastMonthBalances sampleEnv 2024 5 aprilAndMay in
  logs (Storage.loadData stored) = logs (Storage.loadData aprilAndMay)
  ∧ ∃ r', Storage.getMonthlyRecord "a" 2024 5 stored = Some r'
          ∧ MonthlyRecord.accountId r' = "a"
          ∧ MonthlyRecord.balance r' = 700.
Proof.
  destruct (copyLastMonthBalances_silent sampleEnv 2024 5 aprilAndMay)
    as (_ & Hlogs & _ & _ & _ & Hcopy & _).
  split; [exact Hlogs|].
  apply (Hcopy aprilAndMay_unique (MonthlyRecord.mk "r1" "a" 2024 4 700)).
  apply list_elem_of_filter. split; [by split|]. by left.
Defined.

Lemma uniqueRecords_preserved_witness :
  uniqueRecords (records (Storage.loadData aprilAndMay))
  ∧ uniqueRecords
      (records (Storage.loadData (Storage.addAccount sampleEnv walletAccount aprilAndMay).2))
  ∧ uniqueRecords
      (records (Storage.loadData (Storage.setMonthlyRecord sampleEnv "a" 2024 5 9 aprilAndMay).2))
  ∧ uniqueRecords
      (records (Storage.loadData (Calculator.copyLastMonthBalances sampleEnv 2024 5 aprilAndMay))).
Proof.
  destruct (uniqueRecords_preserved sampleEnv aprilAndMay aprilAndMay_unique)
    as (Hadd & _ & Hset & Hcopy & _).
  split; [exact aprilAndMay_unique|].
  split; [|split; [apply Hset | apply Hcopy]].
  apply Hadd. intros r Hr.
  apply elem_of_cons in Hr as [-> | Hr%list_elem_of_singleton]; [done | by subst r].
Defined.

(** C2 fails for [importData].  Importing into January 2024, in merge
    mode, the one January record of a document into that same document
    leaves two records for the same account and month, although the
    document and the payload each had one.  With no target period a
    payload with two records for the same coordinates is stored as it
    is. *)
Lemma importData_duplicates_records :
  let january : LocalStorage :=
    Some (Parsed (Storage.stringify
      {| accounts := [walletAccount];
         records := [MonthlyRecord.mk "r1" "w" 2024 1 10]; logs := [];
         settings := AppSettings.mk false blue;
         version := Storage.CURRENT_VERSION |})) in
  let payload := Storage.exportDataByRange 2024 1 2024 1 january in
  let merged := Storage.importData sampleEnv payload (Some 2024) (Some 1) merge january in
  let twice :=
    Parsed (Json.mk (Some [walletAccount])
              (Some [MonthlyRecord.mk "r1" "w" 2024 1 10; MonthlyRecord.mk "r2" "w" 2024 1 20])
              None None None) in
  let replaced := Storage.importData sampleEnv twice None None merge None in
  uniqueRecords (records (Storage.loadData january))
  ∧ merged.1 = true
  ∧ records (Storage.loadData merged.2)
    = [MonthlyRecord.mk "r1" "w" 2024 1 10; MonthlyRecord.mk "g0" "w" 2024 1 10]
  ∧ ¬ uniqueRecords (records (Storage.loadData merged.2))
  ∧ uniqueRecords (records (Storage.loadData None))
  ∧ replaced.1 = true
  ∧ ¬ uniqueRecords (records (Storage.loadData replaced.2)).
Proof.
  simpl. split_and!.
  - apply (bool_decide_unpack _). by vm_compute.
  - done.
  - by vm_compute.
  - intros Hnd. apply (bool_decide_pack _) in Hnd. by vm_compute in Hnd.
  - apply NoDup_nil_2.
  - done.
  - intros Hnd. apply (bool_decide_pack _) in Hnd. by vm_compute in Hnd.
Qed.

(** ** The repository and the engine on small documents *)

(** Creating a cash account of [1000] in May 2024 stores the account, a
    record of May and the creation log; setting the record of May to
    [800] then rewrites that record and logs the change from [1000]. *)
Example create_then_set_balance :
  let created := Storage.addAccount sampleEnv walletAccount None in
  let set := Storage.setMonthlyRecord sampleEnv "g0" 2024 5 800 created.2 in
  Account.id created.1 = "g0"
  ∧ records (Storage.loadData created.2) = [MonthlyRecord.mk "g1" "g0" 2024 5 1000]
  ∧ Calculator.calculateTotalAssets 2024 5 created.2 = 1000
  ∧ set.1 = MonthlyRecord.mk "g1" "g0" 2024 5 800
  ∧ records (Storage.loadData set.2) = [MonthlyRecord.mk "g1" "g0" 2024 5 800]
  ∧ Calculator.calculateNetWorth 2024 5 set.2 = 800
  ∧ logs (Storage.loadData set.2)
    = [RecordLog.mk "g2" "g0" "Wallet" 2024 5 0 1000 7 (Some account_create);
       RecordLog.mk "g0" "g0" "Wallet" 2024 5 1000 800 7 (Some balance_change)].
Proof. by vm_compute. Qed.

(** An account created with balance [0] gets no record, only its log. *)
Example create_with_zero_balance :
  let created :=
    Storage.addAccount sampleEnv
      (Account.mk "" "Empty" debit "credit-card" 0 true false None None None None) None in
  records (Storage.loadData created.2) = []
  ∧ logs (Storage.loadData created.2)
    = [RecordLog.mk "g1" "g0" "Empty" 2024 5 0 0 7 (Some account_create)].
Proof. by vm_compute. Qed.

(** Deleting an account takes its records and its logs with it. *)
Example delete_cascades :
  Storage.deleteAccount "a" aprilAndMay
  = (true, Storage.saveData
             {| accounts := []; records := []; logs := [];
                settings := AppSettings.mk true dark;
                version := Storage.CURRENT_VERSION |}).
Proof. by vm_compute. Qed.

(** From a net worth of [700] in April to [5] in May the change is
    [-695], that is [-695 / 700 * 100] percent; the year 2024 is read
    at its last recorded month, May. *)
Example monthly_and_yearly_figures :
  let may := Calculator.getMonthlyNetWorth 2024 5 aprilAndMay in
  let y2024 := Calculator.getYearlyNetWorth 2024 aprilAndMay in
  MonthlyNetWorth.netWorth may = 5
  ∧ MonthlyNetWorth.change may = -695
  ∧ MonthlyNetWorth.changePercent may = Finite (Q2Qc (-695 # 7))
  ∧ YearlyNetWorth.lastRecordedMonth y2024 = 5
  ∧ YearlyNetWorth.netWorth y2024 = 5
  ∧ YearlyNetWorth.changePercent y2024 = Finite 0%Qc.
Proof.
  split_and!; try by vm_compute.
  change (Calculator.percentOf (-695) 700 = Finite (Q2Qc (-695 # 7))).
  unfold Calculator.percentOf, Calculator.divide, Calculator.times100.
  rewrite decide_True, decide_False by done.
  f_equal. apply Qc_is_canon. by vm_compute.
Qed.

(** Importing into May 2024 in overwrite mode first drops the records
    and logs of May, then appends the payload re-dated to May. *)
Example import_overwrite_redates :
  let payload :=
    Parsed (Json.mk (Some [walletAccount])
              (Some [MonthlyRecord.mk "x" "w" 2020 1 42]) None None None) in
  let imported :=
    Storage.importData sampleEnv payload (Some 2024) (Some 5) overwrite aprilAndMay in
  imported.1 = true
  ∧ Account.id <$> accounts (Storage.loadData imported.2) = ["a"; "w"]
  ∧ records (Storage.loadData imported.2)
    = [MonthlyRecord.mk "r1" "a" 2024 4 700; MonthlyRecord.mk "g0" "w" 2024 5 42]
  ∧ logs (Storage.loadData imported.2) = [].
Proof. by vm_compute. Qed.

(** Copying April into May overwrites the record of May and writes
    nothing else. *)
Example copy_april_into_may :
  let stored := Calculator.copyLastMonthBalances sampleEnv 2024 5 aprilAndMay in
  records (Storage.loadData stored)
  = [MonthlyRecord.mk "r1" "a" 2024 4 700; MonthlyRecord.mk "r2" "a" 2024 5 700]
  ∧ logs (Storage.loadData stored) = logs (Storage.loadData aprilAndMay).
Proof. by vm_compute. Qed.

(** * Further properties of the repository and of the engine *)

(** ** Deleting an account *)

(** X1. When an account has identifier [id], [deleteAccount] returns
    [true], removes the first such account and keeps the others in
    their order; no record and no log of that account is left, and
    every record and log of another account stays; the settings are
    untouched.  With pairwise distinct account identifiers the
    account can no longer be looked up. *)
Theorem deleteAccount_cascade id ls l1 a l2 :
  accounts (Storage.loadData ls) = l1 ++ a :: l2 →
  Account.id a = id →
  (∀ x, x ∈ l1 → Account.id x ≠ id) →
  let result := Storage.deleteAccount id ls in
  let before := Storage.loadData ls in
  let after := Storage.loadData result.2 in
  result.1 = true
  ∧ accounts after = l1 ++ l2
  ∧ (∀ r, r ∈ records after ↔ r ∈ records before ∧ MonthlyRecord.accountId r ≠ id)
  ∧ (∀ l, l ∈ logs after ↔ l ∈ logs before ∧ RecordLog.accountId l ≠ id)
  ∧ records after `sublist_of` records before
  ∧ logs after `sublist_of` logs before
  ∧ settings after = settings before
  ∧ (uniqueAccountIds (accounts before) → Storage.getAccountById id result.2 = None).
Proof.
  intros Haccs Hid Hl1. simpl. unfold Storage.deleteAccount, findIndex.
  rewrite Haccs, (list_find_split _ l1 l2 a) by done. simpl.
  unfold Storage.getAccountById. rewrite loadData_saveData. simpl.
  rewrite delete_middle. split_and!; try done.
  - intros r. rewrite list_elem_of_filter. tauto.
  - intros l. rewrite list_elem_of_filter. tauto.
  - apply sublist_filter.
  - apply sublist_filter.
  - intros Hunique. unfold find.
    rewrite list_find_unknown; [done|]. intros x Hx Hxid.
    unfold uniqueAccountIds in Hunique.
    rewrite fmap_app, fmap_cons in Hunique.
    apply NoDup_app in Hunique as (_ & Hdisj & Hnd).
    apply NoDup_cons in Hnd as [Hnotin _].
    apply elem_of_app in Hx as [Hx | Hx]; [by apply (Hl1 x)|].
    apply Hnotin. rewrite Hid, <- Hxid. by apply list_elem_of_fmap_2.
Qed.

Lemma deleteAccount_cascade_witness :
  let result := Storage.deleteAccount "c" walletAndCard in
  result.1 = true
  ∧ accounts (Storage.loadData result.2) = [walletAccount]
  ∧ Storage.getAccountById "c" result.2 = None.
Proof.
  assert (uniqueAccountIds (accounts (Storage.loadData walletAndCard))) as Hunique.
  { apply (bool_decide_unpack _). by vm_compute. }
  destruct (deleteAccount_cascade "c" walletAndCard [walletAccount] cardAccount []
              eq_refl eq_refl) as (Htrue & Haccs & _ & _ & _ & _ & _ & Hgone).
  { intros x Hx%list_elem_of_singleton. by subst x. }
  split; [exact Htrue|]. split; [exact Haccs | exact (Hgone Hunique)].
Defined.

(** ** Creating an account *)

(** What [addAccount] stores. *)
Lemma addAccount_stored env account ls :
  let result := Storage.addAccount env account ls in
  let before := Storage.loadData ls in
  let after := Storage.loadData result.2 in
  let newAccount := Account.with_id (generateId env 0) account in
  result.1 = newAccount
  ∧ accounts after = accounts before ++ [newAccount]
  ∧ (∃ logId,
       logs after
       = logs before
         ++ [RecordLog.mk logId (generateId env 0) (Account.name account)
               (Storage.currentYear env) (Storage.currentMonth env)
               0 (Account.balance account) (Date_now env) (Some account_create)])
  ∧ (Account.balance account = 0 → records after = records before)
  ∧ (Account.balance account ≠ 0 →
     ∃ recordId,
       records after
       = records before
         ++ [MonthlyRecord.mk recordId (generateId env 0)
               (Storage.currentYear env) (Storage.currentMonth env) (Account.balance account)])
  ∧ settings after = settings before.
Proof.
  simpl. unfold Storage.addAccount.
  destruct (decide (Account.balance (Account.with_id (generateId env 0) account) ≠ 0))
    as [Hne | Heq]; simpl in *; rewrite loadData_saveData; simpl.
  - split_and!; try done; [by eexists | by eexists].
  - apply dec_stable in Heq. split_and!; try done; by eexists.
Qed.

(** X2. [addAccount] returns the account with the generated
    identifier and puts it last; it appends exactly one log, the
    creation log from [0] to the initial balance; and it appends a
    record for the current month exactly when the initial balance is
    not [0].  Nothing that was stored is changed. *)
Theorem addAccount_effect env account ls :
  let result := Storage.addAccount env account ls in
  let before := Storage.loadData ls in
  let after := Storage.loadData result.2 in
  let newAccount := Account.with_id (generateId env 0) account in
  result.1 = newAccount
  ∧ accounts after = accounts before ++ [newAccount]
  ∧ (∃ logId,
       logs after
       = logs before
         ++ [RecordLog.mk logId (generateId env 0) (Account.name account)
               (Storage.currentYear env) (Storage.currentMonth env)
               0 (Account.balance account) (Date_now env) (Some account_create)])
  ∧ (Account.balance account = 0 → records after = records before)
  ∧ (Account.balance account ≠ 0 →
     ∃ recordId,
       records after
       = records before
         ++ [MonthlyRecord.mk recordId (generateId env 0)
               (Storage.currentYear env) (Storage.currentMonth env) (Account.balance account)])
  ∧ settings after = settings before.
Proof. exact (addAccount_stored env account ls). Qed.

Lemma addAccount_effect_witness :
  let result := Storage.addAccount sampleEnv walletAccount aprilAndMay in
  ∃ recordId,
    records (Storage.loadData result.2)
    = records (Storage.loadData aprilAndMay)
      ++ [MonthlyRecord.mk recordId "g0" 2024 5 1000].
Proof.
  destruct (addAccount_effect sampleEnv walletAccount aprilAndMay)
    as (_ & _ & _ & _ & Hrecord & _).
  apply Hrecord. done.
Defined.

Lemma balanceOf_month_snoc_other (rs : list MonthlyRecord.t) r account :
  MonthlyRecord.accountId r ≠ Account.id account →
  Calculator.balanceOf (rs ++ [r]) account = Calculator.balanceOf rs account.
Proof.
  intros Hne. unfold Calculator.balanceOf, find.
  destruct (list_find _ rs) as [[i x]|] eqn:Hfind.
  - by erewrite list_find_app_l.
  - rewrite list_find_app_r by done. simpl. by rewrite decide_False.
Qed.

Lemma balanceOf_no_record (rs : list MonthlyRecord.t) account :
  (∀ r, r ∈ rs → MonthlyRecord.accountId r ≠ Account.id account) →
  Calculator.balanceOf rs account = Account.balance account.
Proof.
  intros Hnone. unfold Calculator.balanceOf, find. by rewrite list_find_unknown.
Qed.

(** For one account, what the assets loop adds less what the
    liabilities loop adds is its contribution to the net worth. *)
Lemma steps_netContribution records account :
  Calculator.assetsStep records 0 account - Calculator.liabilitiesStep records 0 account
  = netContribution records account.
Proof.
  unfold Calculator.assetsStep, Calculator.liabilitiesStep, netContribution.
  destruct (Account.isHidden account); [done|].
  destruct (Account.type account); simpl;
    repeat case_decide; destruct_and?; try done; try lia;
    match goal with
    | H : ¬ (_ ∧ ?P) |- _ => assert (¬ P) by (intros ?; apply H; by split); lia
    end.
Qed.

Lemma foldl_ext_elem {A B} (f g : B → A → B) (l : list A) :
  (∀ b a, a ∈ l → f b a = g b a) → ∀ b, foldl f b l = foldl g b l.
Proof.
  induction l as [|x l IH]; intros Hfg b; [done|]. simpl.
  rewrite Hfg by left. apply IH. intros b' a Ha. apply Hfg. by right.
Qed.

(** X3. When the generated identifier is new to the document, the
    account of no other account and of no record, creating an account
    changes the total assets and the total liabilities of every month
    by what the loop bodies add for the new account alone at its
    initial balance; the other accounts count as before. *)
Theorem addAccount_totals env account ls year month :
  (∀ a, a ∈ accounts (Storage.loadData ls) → Account.id a ≠ generateId env 0) →
  (∀ r, r ∈ records (Storage.loadData ls) → MonthlyRecord.accountId r ≠ generateId env 0) →
  let result := Storage.addAccount env account ls in
  let newAccount := Account.with_id (generateId env 0) account in
  Calculator.calculateTotalAssets year month result.2
  = Calculator.calculateTotalAssets year month ls + Calculator.assetsStep [] 0 newAccount
  ∧ Calculator.calculateTotalLiabilities year month result.2
    = Calculator.calculateTotalLiabilities year month ls
      + Calculator.liabilitiesStep [] 0 newAccount
  ∧ Calculator.calculateNetWorth year month result.2
    = Calculator.calculateNetWorth year month ls + netContribution [] newAccount.
Proof.
  intros Hfresh_accounts Hfresh_records. simpl.
  destruct (addAccount_stored env account ls) as (_ & Haccs & _ & Hzero & Hnonzero & _).
  simpl in *.
  set (newAccount := Account.with_id (generateId env 0) account) in *.
  set (after := (Storage.addAccount env account ls).2) in *.
  set (rs := Storage.getMonthlyRecordsByMonth year month ls).
  set (rs' := Storage.getMonthlyRecordsByMonth year month after).
  assert (∀ a, a ∈ accounts (Storage.loadData ls) →
               Calculator.balanceOf rs' a = Calculator.balanceOf rs a) as Hold.
  { intros a Ha. unfold rs', rs, Storage.getMonthlyRecordsByMonth.
    destruct (decide (Account.balance account = 0)) as [Hz | Hnz].
    - by rewrite (Hzero Hz).
    - destruct (Hnonzero Hnz) as [recordId ->]. rewrite filter_app, filter_cons, filter_nil.
      case_decide; [|by rewrite app_nil_r].
      apply balanceOf_month_snoc_other. simpl. intros Heq. by apply (Hfresh_accounts a). }
  assert (Calculator.balanceOf rs' newAccount = Account.balance account) as Hnew.
  { unfold rs', Storage.getMonthlyRecordsByMonth.
    destruct (decide (Account.balance account = 0)) as [Hz | Hnz].
    - rewrite (Hzero Hz). apply (balanceOf_no_record _ newAccount).
      intros r [_ Hr]%list_elem_of_filter. by apply Hfresh_records.
    - destruct (Hnonzero Hnz) as [recordId ->]. rewrite filter_app, filter_cons, filter_nil.
      case_decide.
      + unfold Calculator.balanceOf, find. rewrite list_find_app_r.
        * simpl. by rewrite decide_True.
        * apply list_find_unknown. intros r [_ Hr]%list_elem_of_filter.
          by apply Hfresh_records.
      + rewrite app_nil_r. apply (balanceOf_no_record _ newAccount).
        intros r [_ Hr]%list_elem_of_filter. by apply Hfresh_records. }
  assert (Calculator.balanceOf [] newAccount = Account.balance account) as Hempty by done.
  assert (Calculator.calculateTotalAssets year month after
          = Calculator.calculateTotalAssets year month ls
            + Calculator.assetsStep [] 0 newAccount) as Hassets.
  { unfold Calculator.calculateTotalAssets, Storage.getAllAccounts. fold rs rs'.
    rewrite Haccs, foldl_app. simpl. rewrite assetsStep_additive.
    f_equal.
    - apply foldl_ext_elem. intros b a Ha. unfold Calculator.assetsStep.
      by rewrite (Hold a Ha).
    - unfold Calculator.assetsStep. by rewrite Hnew, Hempty. }
  assert (Calculator.calculateTotalLiabilities year month after
          = Calculator.calculateTotalLiabilities year month ls
            + Calculator.liabilitiesStep [] 0 newAccount) as Hliab.
  { unfold Calculator.calculateTotalLiabilities, Storage.getAllAccounts. fold rs rs'.
    rewrite Haccs, foldl_app. simpl. rewrite liabilitiesStep_additive.
    f_equal.
    - apply foldl_ext_elem. intros b a Ha. unfold Calculator.liabilitiesStep.
      by rewrite (Hold a Ha).
    - unfold Calculator.liabilitiesStep. by rewrite Hnew, Hempty. }
  split_and!; [done | done |].
  unfold Calculator.calculateNetWorth. rewrite Hassets, Hliab.
  rewrite <- steps_netContribution. lia.
Qed.

Lemma addAccount_totals_witness :
  let result := Storage.addAccount sampleEnv walletAccount aprilAndMay in
  Calculator.calculateNetWorth 2024 5 result.2
  = Calculator.calculateNetWorth 2024 5 aprilAndMay + 1000.
Proof.
  refine (proj2 (proj2 (addAccount_totals sampleEnv walletAccount aprilAndMay 2024 5 _ _))).
  - intros a Ha%list_elem_of_singleton. by subst a.
  - intros r Hr.
    apply elem_of_cons in Hr as [-> | Hr%list_elem_of_singleton]; [done | by subst r].
Defined.

(** ** Writing and reading a monthly balance *)

Lemma list_find_filter {A} (P Q : A → Prop) `{∀ x, Decision (P x)} `{∀ x, Decision (Q x)}
    (l : list A) :
  find P (filter Q l) = find (λ x, Q x ∧ P x) l.
Proof.
  unfold find. induction l as [|x l IH]; [done|].
  rewrite filter_cons. simpl. destruct (decide (Q x)) as [HQ | HQ]; simpl.
  - destruct (decide (P x)) as [HP | HP].
    + by rewrite decide_True.
    + rewrite decide_False by tauto.
      destruct (list_find P (filter Q l)) as [[i y]|];
        destruct (list_find (λ x, Q x ∧ P x) l) as [[j z]|]; simpl in *; congruence.
  - rewrite decide_False by tauto.
    destruct (list_find P (filter Q l)) as [[i y]|];
      destruct (list_find (λ x, Q x ∧ P x) l) as [[j z]|]; simpl in *; congruence.
Qed.

Lemma find_ext {A} (P Q : A → Prop) `{∀ x, Decision (P x)} `{∀ x, Decision (Q x)}
    (l : list A) :
  (∀ x, P x ↔ Q x) → find P l = find Q l.
Proof.
  intros HPQ. unfold find. induction l as [|x l IH]; [done|]. simpl.
  destruct (decide (P x)) as [HP | HP].
  - by rewrite decide_True by (by apply HPQ).
  - rewrite decide_False by (by rewrite <- HPQ).
    destruct (list_find P l) as [[i y]|]; destruct (list_find Q l) as [[j z]|];
      simpl in *; congruence.
Qed.

(** The balance the engine resolves for an account in a month is that
    of the record the repository finds for the account and the month,
    and the baseline balance when it finds none. *)
Lemma balanceOf_getMonthlyRecord year month ls account :
  Calculator.balanceOf (Storage.getMonthlyRecordsByMonth year month ls) account
  = match Storage.getMonthlyRecord (Account.id account) year month ls with
    | Some record => MonthlyRecord.balance record
    | None => Account.balance account
    end.
Proof.
  unfold Calculator.balanceOf, Storage.getMonthlyRecordsByMonth, Storage.getMonthlyRecord.
  rewrite list_find_filter.
  rewrite (find_ext _ (MonthlyRecord.is_for (Account.id account) year month)); [done|].
  intros r. unfold MonthlyRecord.is_for. tauto.
Qed.

Lemma setMonthlyRecord_frame env a y m b ls :
  let after := Storage.loadData (Storage.setMonthlyRecord env a y m b ls).2 in
  accounts after = accounts (Storage.loadData ls)
  ∧ settings after = settings (Storage.loadData ls)
  ∧ after = {| accounts := accounts after; records := records after; logs := logs after;
               settings := settings after; version := Storage.CURRENT_VERSION |}.
Proof.
  simpl. unfold Storage.setMonthlyRecord.
  destruct (list_find _ (records (Storage.loadData ls))) as [[j r]|];
    destruct (find _ (accounts (Storage.loadData ls))) as [account|]; simpl;
    try match goal with |- context [decide ?P] => destruct (decide P) end;
    simpl; by rewrite loadData_saveData.
Qed.

(** What is read after [setMonthlyRecord]. *)
Lemma setMonthlyRecord_reads env a y m b ls :
  let result := Storage.setMonthlyRecord env a y m b ls in
  let before := Storage.loadData ls in
  let after := Storage.loadData result.2 in
  Storage.getMonthlyRecord a y m result.2 = Some result.1
  ∧ MonthlyRecord.key result.1 = (a, y, m)
  ∧ MonthlyRecord.balance result.1 = b
  ∧ (∀ account, Account.id account = a →
       Calculator.balanceOf (Storage.getMonthlyRecordsByMonth y m result.2) account = b)
  ∧ (∀ a' y' m', (a', y', m') ≠ (a, y, m) →
       Storage.getMonthlyRecord a' y' m' result.2 = Storage.getMonthlyRecord a' y' m' ls)
  ∧ accounts after = accounts before
  ∧ settings after = settings before.
Proof.
  simpl.
  destruct (setMonthlyRecord_upsert env a y m b ls) as [Hrecs [i Hfind]].
  assert (Storage.getMonthlyRecord a y m (Storage.setMonthlyRecord env a y m b ls).2
          = Some (Storage.setMonthlyRecord env a y m b ls).1) as Hget.
  { unfold Storage.getMonthlyRecord, find. by rewrite Hfind. }
  assert (MonthlyRecord.balance (Storage.setMonthlyRecord env a y m b ls).1 = b) as Hbal.
  { destruct (upsertRecord_find (MonthlyRecord.id (Storage.setMonthlyRecord env a y m b ls).1)
                a y m b (records (Storage.loadData ls))) as (r' & Hr' & Hb).
    rewrite <- Hrecs in Hr'. unfold Storage.getMonthlyRecord in Hget. congruence. }
  split_and!; try done.
  - apply list_find_Some in Hfind as (_ & Hfor & _). by apply is_for_key.
  - intros account <-. by rewrite balanceOf_getMonthlyRecord, Hget.
  - intros a' y' m' Hne. unfold Storage.getMonthlyRecord. rewrite Hrecs.
    by apply upsertRecord_find_other.
  - by destruct (setMonthlyRecord_frame env a y m b ls) as (-> & _).
  - by destruct (setMonthlyRecord_frame env a y m b ls) as (_ & -> & _).
Qed.

(** X4. After [setMonthlyRecord (a, y, m, b)] the record looked up
    for [(a, y, m)] is the record returned, it has balance [b], and
    the engine resolves to [b] the balance in that month of an account
    with identifier [a].  The lookup of any other (account, year,
    month) gives what it gave before, and the accounts and the
    settings are unchanged. *)
Theorem setMonthlyRecord_lookup env a y m b ls :
  let result := Storage.setMonthlyRecord env a y m b ls in
  let before := Storage.loadData ls in
  let after := Storage.loadData result.2 in
  Storage.getMonthlyRecord a y m result.2 = Some result.1
  ∧ MonthlyRecord.key result.1 = (a, y, m)
  ∧ MonthlyRecord.balance result.1 = b
  ∧ (∀ account, Account.id account = a →
       Calculator.balanceOf (Storage.getMonthlyRecordsByMonth y m result.2) account = b)
  ∧ (∀ a' y' m', (a', y', m') ≠ (a, y, m) →
       Storage.getMonthlyRecord a' y' m' result.2 = Storage.getMonthlyRecord a' y' m' ls)
  ∧ accounts after = accounts before
  ∧ settings after = settings before.
Proof. exact (setMonthlyRecord_reads env a y m b ls). Qed.

Lemma setMonthlyRecord_lookup_witness :
  let result := Storage.setMonthlyRecord sampleEnv "a" 2024 5 9 aprilAndMay in
  Storage.getMonthlyRecord "a" 2024 5 result.2 = Some (MonthlyRecord.mk "r2" "a" 2024 5 9)
  ∧ Storage.getMonthlyRecord "a" 2024 4 result.2
    = Some (MonthlyRecord.mk "r1" "a" 2024 4 700).
Proof.
  destruct (setMonthlyRecord_lookup sampleEnv "a" 2024 5 9 aprilAndMay)
    as (Hget & _ & _ & _ & Hother & _).
  split; [exact Hget|].
  rewrite (Hother "a" 2024 4); [reflexivity | discriminate].
Defined.

Lemma set_balance_same r : MonthlyRecord.set_balance (MonthlyRecord.balance r) r = r.
Proof. by destruct r. Qed.

(** The log of [setMonthlyRecord], and writing twice. *)
Lemma setMonthlyRecord_logged env a y m b ls :
  let result := Storage.setMonthlyRecord env a y m b ls in
  let before := Storage.loadData ls in
  let after := Storage.loadData result.2 in
  let oldBalance :=
    match Storage.getMonthlyRecord a y m ls with
    | Some r => MonthlyRecord.balance r
    | None => from_option Account.balance 0 (Storage.getAccountById a ls)
    end in
  match Storage.getAccountById a ls with
  | Some account =>
      (oldBalance = b → logs after = logs before)
      ∧ (oldBalance ≠ b →
         logs after
         = logs before
           ++ [RecordLog.mk (generateId env 0) a (Account.name account) y m oldBalance b
                 (Date_now env) (Some balance_change)])
  | None => logs after = logs before
  end
  ∧ ∀ env', Storage.loadData (Storage.setMonthlyRecord env' a y m b result.2).2 = after.
Proof.
  simpl. split.
  - unfold Storage.setMonthlyRecord, Storage.getAccountById, Storage.getMonthlyRecord, find.
    destruct (list_find (MonthlyRecord.is_for a y m) _) as [[j r]|];
      destruct (list_find (λ a0, Account.id a0 = a) _) as [[k account]|]; simpl;
      try match goal with |- context [decide ?P] => destruct (decide P) as [Hne | Heq] end;
      simpl; rewrite loadData_saveData; simpl; try done;
      try apply dec_stable in Heq; (split; intros ?; done).
  - intros env'.
    destruct (setMonthlyRecord_reads env a y m b ls) as (Hget & _ & Hbal & _).
    set (first := Storage.setMonthlyRecord env a y m b ls) in *.
    unfold Storage.getMonthlyRecord, find in Hget.
    destruct (list_find _ (records (Storage.loadData first.2))) as [[i r]|] eqn:Hfind;
      [|done].
    injection Hget as ->.
    unfold Storage.setMonthlyRecord at 1. rewrite Hfind.
    assert (<[i := MonthlyRecord.set_balance b first.1]> (records (Storage.loadData first.2))
            = records (Storage.loadData first.2)) as Hsame.
    { apply list_insert_id. apply list_find_Some in Hfind as (Hi & _).
      by rewrite <- Hbal, set_balance_same. }
    destruct (setMonthlyRecord_frame env a y m b ls) as (_ & _ & Hload). fold first in Hload.
    destruct (find _ (accounts (Storage.loadData first.2))) as [account|]; simpl.
    + rewrite decide_False by (intros Hne; by apply Hne).
      simpl. rewrite loadData_saveData, Hsame. simpl. by rewrite <- Hload.
    + rewrite loadData_saveData, Hsame. simpl. by rewrite <- Hload.
Qed.

(** X5. [setMonthlyRecord] appends a log only for an account of the
    document whose balance for the month, that of its record or else
    its baseline balance, differs from the one written; the log is a
    [balance_change] from that balance to the new one.  Writing the
    same balance a second time changes nothing: no log, the same
    records. *)
Theorem setMonthlyRecord_logs env a y m b ls :
  let result := Storage.setMonthlyRecord env a y m b ls in
  let before := Storage.loadData ls in
  let after := Storage.loadData result.2 in
  let oldBalance :=
    match Storage.getMonthlyRecord a y m ls with
    | Some r => MonthlyRecord.balance r
    | None => from_option Account.balance 0 (Storage.getAccountById a ls)
    end in
  match Storage.getAccountById a ls with
  | Some account =>
      (oldBalance = b → logs after = logs before)
      ∧ (oldBalance ≠ b →
         logs after
         = logs before
           ++ [RecordLog.mk (generateId env 0) a (Account.name account) y m oldBalance b
                 (Date_now env) (Some balance_change)])
  | None => logs after = logs before
  end
  ∧ ∀ env', Storage.loadData (Storage.setMonthlyRecord env' a y m b result.2).2 = after.
Proof. exact (setMonthlyRecord_logged env a y m b ls). Qed.

Lemma setMonthlyRecord_logs_witness :
  let result := Storage.setMonthlyRecord sampleEnv "a" 2024 5 9 aprilAndMay in
  logs (Storage.loadData result.2)
  = logs (Storage.loadData aprilAndMay)
    ++ [RecordLog.mk "g0" "a" "Wallet" 2024 5 5 9 7 (Some balance_change)]
  ∧ Storage.loadData (Storage.setMonthlyRecord sampleEnv "a" 2024 5 9 result.2).2
    = Storage.loadData result.2.
Proof.
  destruct (setMonthlyRecord_logs sampleEnv "a" 2024 5 9 aprilAndMay) as [Hlogs Hagain].
  split; [|exact (Hagain sampleEnv)].
  apply (proj2 Hlogs). discriminate.
Defined.

(** ** Updating an account *)

(** What [updateAccount] stores when it finds the account. *)
Lemma updateAccount_found env id updates ls index oldAccount :
  list_find (λ a, Account.id a = id) (accounts (Storage.loadData ls))
    = Some (index, oldAccount) →
  let result := Storage.updateAccount env id updates ls in
  let before := Storage.loadData ls in
  let after := Storage.loadData result.2 in
  let updated := PartialAccount.merge oldAccount updates in
  let balanceChanged :=
    Storage.changed (PartialAccount.balance updates) (Account.balance oldAccount) in
  result.1 = Some updated
  ∧ accounts after = <[index := updated]> (accounts before)
  ∧ settings after = settings before
  ∧ records after
    = (if balanceChanged
       then upsertRecord (generateId env 0) id (Storage.currentYear env)
              (Storage.currentMonth env) (Account.balance updated) (records before)
       else records before)
  ∧ ∃ changeId editId,
      logs after
      = logs before
        ++ (if balanceChanged
            then [RecordLog.mk changeId id (Account.name updated) (Storage.currentYear env)
                    (Storage.currentMonth env) (Account.balance oldAccount)
                    (Account.balance updated) (Date_now env) (Some balance_change)]
            else [])
        ++ (if Storage.infoChanged updates oldAccount
            then [RecordLog.mk editId id (Account.name updated) (Storage.currentYear env)
                    (Storage.currentMonth env) (Account.balance oldAccount)
                    (Account.balance updated) (Date_now env) (Some account_edit)]
            else []).
Proof.
  intros Hfind. simpl. unfold Storage.updateAccount, upsertRecord. rewrite Hfind.
  unfold Storage.changed at 1 2.
  destruct (PartialAccount.balance updates) as [newBalance|] eqn:Hbal;
    [destruct (decide (newBalance ≠ Account.balance oldAccount)) as [Hne | Heq];
     [rewrite bool_decide_eq_true_2 by done;
      destruct (list_find _ (records (Storage.loadData ls))) as [[i r]|]
     |rewrite bool_decide_eq_false_2 by done]|];
    destruct (Storage.infoChanged updates oldAccount); simpl;
    rewrite loadData_saveData; simpl; rewrite ?Hbal; simpl;
    (split_and!; try done);
    first [ by (exists (generateId env 0), (generateId env 1);
                rewrite <- ?app_assoc, ?app_nil_r)
          | by (exists (generateId env 1), (generateId env 2);
                rewrite <- ?app_assoc, ?app_nil_r)
          | by (exists (generateId env 0), (generateId env 0);
                rewrite <- ?app_assoc, ?app_nil_r) ].
Qed.

(** X6. When [updateAccount] finds the account and is given a
    balance that differs from its baseline, the account takes the new
    balance, the record of the current month for [id] holds it, the
    other (account, year, month) are looked up as before, and a
    [balance_change] log from the old baseline to the new balance
    follows the logs there were. *)
Theorem updateAccount_balance_sync env id updates ls index oldAccount newBalance :
  list_find (λ a, Account.id a = id) (accounts (Storage.loadData ls))
    = Some (index, oldAccount) →
  PartialAccount.balance updates = Some newBalance →
  newBalance ≠ Account.balance oldAccount →
  let result := Storage.updateAccount env id updates ls in
  let before := Storage.loadData ls in
  let after := Storage.loadData result.2 in
  let year := Storage.currentYear env in
  let month := Storage.currentMonth env in
  (∃ updated, result.1 = Some updated ∧ Account.balance updated = newBalance)
  ∧ (∃ record, Storage.getMonthlyRecord id year month result.2 = Some record
               ∧ MonthlyRecord.balance record = newBalance)
  ∧ (∀ a' y' m', (a', y', m') ≠ (id, year, month) →
       Storage.getMonthlyRecord a' y' m' result.2 = Storage.getMonthlyRecord a' y' m' ls)
  ∧ (∃ log rest,
       logs after = logs before ++ log :: rest
       ∧ RecordLog.operationType log = Some balance_change
       ∧ RecordLog.accountId log = id
       ∧ (RecordLog.year log, RecordLog.month log) = (year, month)
       ∧ RecordLog.oldBalance log = Account.balance oldAccount
       ∧ RecordLog.newBalance log = newBalance).
Proof.
  intros Hfind Hbal Hne. simpl.
  destruct (updateAccount_found env id updates ls index oldAccount Hfind)
    as (Hresult & _ & _ & Hrecs & changeId & editId & Hlogs).
  simpl in *. unfold Storage.changed in Hrecs, Hlogs. rewrite Hbal in Hrecs, Hlogs.
  simpl in Hrecs, Hlogs. rewrite bool_decide_eq_true_2 in Hrecs, Hlogs by done.
  split_and!.
  - eexists. split; [exact Hresult|]. simpl. by rewrite Hbal.
  - unfold Storage.getMonthlyRecord. rewrite Hrecs. apply upsertRecord_find.
  - intros a' y' m' Hother. unfold Storage.getMonthlyRecord. rewrite Hrecs.
    by apply upsertRecord_find_other.
  - eexists _, _. split; [exact Hlogs|]. by split_and!.
Qed.

Lemma updateAccount_balance_sync_witness :
  let result := Storage.updateAccount sampleEnv "a" (renameAndSet "Purse" 200) oneAccount in
  ∃ record, Storage.getMonthlyRecord "a" 2024 5 result.2 = Some record
            ∧ MonthlyRecord.balance record = 200.
Proof.
  exact (proj1 (proj2
    (updateAccount_balance_sync sampleEnv "a" (renameAndSet "Purse" 200) oneAccount 0%nat
       (Account.mk "a" "Wallet" cash "banknote" 100 true false None None None None) 200
       eq_refl eq_refl ltac:(discriminate)))).
Defined.

(** [updateAccount] replaces the account in place. *)
Lemma updateAccount_in_place env id updates ls index oldAccount :
  list_find (λ a, Account.id a = id) (accounts (Storage.loadData ls))
    = Some (index, oldAccount) →
  let result := Storage.updateAccount env id updates ls in
  let before := Storage.loadData ls in
  let after := Storage.loadData result.2 in
  length (accounts after) = length (accounts before)
  ∧ accounts after !! index = Some (PartialAccount.merge oldAccount updates)
  ∧ (∀ j, j ≠ index → accounts after !! j = accounts before !! j)
  ∧ (PartialAccount.id updates = None →
     Account.id <$> accounts after = Account.id <$> accounts before)
  ∧ settings after = settings before
  ∧ (Storage.changed (PartialAccount.balance updates) (Account.balance oldAccount) = false →
     records after = records before
     ∧ (Storage.infoChanged updates oldAccount = false → logs after = logs before)).
Proof.
  intros Hfind. simpl.
  destruct (updateAccount_found env id updates ls index oldAccount Hfind)
    as (_ & Haccs & Hsets & Hrecs & changeId & editId & Hlogs).
  simpl in *. rewrite Haccs.
  apply list_find_Some in Hfind as (Hindex & _ & _).
  split_and!.
  - apply length_insert.
  - apply list_lookup_insert_eq. by eapply lookup_lt_Some.
  - intros j Hj. by apply list_lookup_insert_ne.
  - intros Hid. rewrite list_fmap_insert. apply list_insert_id.
    rewrite list_lookup_fmap, Hindex. simpl. by rewrite Hid.
  - done.
  - intros Hsame. rewrite Hsame in Hrecs, Hlogs. split; [done|].
    intros Hinfo. rewrite Hinfo in Hlogs. by rewrite Hlogs, !app_nil_r.
Qed.

(** X7. When [updateAccount] finds the account it replaces it in
    place: the number of accounts and every other account are as they
    were, and so are the identifiers when the update carries none.
    An update that changes neither the balance nor any of name, note,
    type and icon, such as hiding the account or setting
    [includeInTotal], writes no record and no log. *)
Theorem updateAccount_frame env id updates ls index oldAccount :
  list_find (λ a, Account.id a = id) (accounts (Storage.loadData ls))
    = Some (index, oldAccount) →
  let result := Storage.updateAccount env id updates ls in
  let before := Storage.loadData ls in
  let after := Storage.loadData result.2 in
  length (accounts after) = length (accounts before)
  ∧ accounts after !! index = Some (PartialAccount.merge oldAccount updates)
  ∧ (∀ j, j ≠ index → accounts after !! j = accounts before !! j)
  ∧ (PartialAccount.id updates = None →
     Account.id <$> accounts after = Account.id <$> accounts before)
  ∧ settings after = settings before
  ∧ (Storage.changed (PartialAccount.balance updates) (Account.balance oldAccount) = false →
     records after = records before
     ∧ (Storage.infoChanged updates oldAccount = false → logs after = logs before)).
Proof. exact (updateAccount_in_place env id updates ls index oldAccount). Qed.

Lemma updateAccount_frame_witness :
  let result := Storage.updateAccount sampleEnv "c" (setIncludeInTotal false) walletAndCard in
  records (Storage.loadData result.2) = records (Storage.loadData walletAndCard)
  ∧ logs (Storage.loadData result.2) = logs (Storage.loadData walletAndCard)
  ∧ Account.id <$> accounts (Storage.loadData result.2) = ["w"; "c"].
Proof.
  destruct (updateAccount_frame sampleEnv "c" (setIncludeInTotal false) walletAndCard 1%nat
              cardAccount eq_refl) as (_ & _ & _ & Hids & _ & Hquiet).
  destruct (Hquiet eq_refl) as [Hrecs Hlogs].
  split; [exact Hrecs|]. split; [exact (Hlogs eq_refl) | exact (Hids eq_refl)].
Defined.

(** ** Importing into a target month *)

Lemma redateRecords_spec env n targetYear targetMonth rs :
  Forall (λ r, MonthlyRecord.year r = targetYear ∧ MonthlyRecord.month r = targetMonth)
         (Storage.redateRecords env n targetYear targetMonth rs)
  ∧ (λ r, (MonthlyRecord.accountId r, MonthlyRecord.balance r))
      <$> Storage.redateRecords env n targetYear targetMonth rs
    = (λ r, (MonthlyRecord.accountId r, MonthlyRecord.balance r)) <$> rs
  ∧ length (Storage.redateRecords env n targetYear targetMonth rs) = length rs.
Proof.
  unfold Storage.redateRecords. split_and!.
  - apply Forall_forall. intros r (i & x & -> & _)%elem_of_lookup_imap. done.
  - rewrite fmap_imap, <- imap_const. by apply imap_ext.
  - apply length_imap.
Qed.

Lemma redateLogs_spec env n targetYear targetMonth ls :
  Forall (λ l, RecordLog.year l = targetYear ∧ RecordLog.month l = targetMonth
               ∧ RecordLog.timestamp l = Date_now env)
         (Storage.redateLogs env n targetYear targetMonth ls)
  ∧ length (Storage.redateLogs env n targetYear targetMonth ls) = length ls.
Proof.
  unfold Storage.redateLogs. split.
  - apply Forall_forall. intros l (i & x & -> & _)%elem_of_lookup_imap. done.
  - apply length_imap.
Qed.

(** What an import into a target month stores. *)
Lemma importData_into_month env data dataAccounts dataRecords targetYear targetMonth
    mergeMode ls :
  Json.accounts data = Some dataAccounts →
  Json.records data = Some dataRecords →
  let result :=
    Storage.importData env (Parsed data) (Some targetYear) (Some targetMonth) mergeMode ls in
  let before := Storage.loadData ls in
  let after := Storage.loadData result.2 in
  let keptRecords :=
    match mergeMode with
    | overwrite =>
        filter (λ r, ¬ (MonthlyRecord.year r = targetYear ∧ MonthlyRecord.month r = targetMonth))
               (records before)
    | merge => records before
    end in
  let keptLogs :=
    match mergeMode with
    | overwrite =>
        filter (λ l, ¬ (RecordLog.year l = targetYear ∧ RecordLog.month l = targetMonth))
               (logs before)
    | merge => logs before
    end in
  result.1 = true
  ∧ accounts before `prefix_of` accounts after
  ∧ (∀ a, a ∈ accounts after
          ↔ a ∈ accounts before
            ∨ (a ∈ dataAccounts ∧ Account.id a ∉ Account.id <$> accounts before))
  ∧ (∃ imported,
       records after = keptRecords ++ imported
       ∧ Forall (λ r, MonthlyRecord.year r = targetYear ∧ MonthlyRecord.month r = targetMonth)
                imported
       ∧ (λ r, (MonthlyRecord.accountId r, MonthlyRecord.balance r)) <$> imported
         = (λ r, (MonthlyRecord.accountId r, MonthlyRecord.balance r)) <$> dataRecords)
  ∧ (∃ imported,
       logs after = keptLogs ++ imported
       ∧ Forall (λ l, RecordLog.year l = targetYear ∧ RecordLog.month l = targetMonth
                      ∧ RecordLog.timestamp l = Date_now env) imported
       ∧ length imported = length (default [] (Json.logs data)))
  ∧ settings after = settings before.
Proof.
  intros Ha Hr. simpl. unfold Storage.importData. rewrite Ha, Hr. simpl.
  rewrite loadData_saveData. simpl.
  destruct (redateRecords_spec env 0 targetYear targetMonth dataRecords) as (Hrf & Hrv & _).
  destruct (redateLogs_spec env (length dataRecords) targetYear targetMonth
              (default [] (Json.logs data))) as (Hlf & Hll).
  split_and!; try done.
  - by eexists.
  - intros a. rewrite elem_of_app, list_elem_of_filter. tauto.
  - by eexists.
  - by eexists.
Qed.



(** ** Distinct account identifiers *)

(** X9. On a document whose accounts have pairwise distinct
    identifiers, the accounts still have after [addAccount] when the
    generated identifier is that of no account, after [updateAccount]
    when the update carries no identifier, after [deleteAccount], and
    after an import into a target month of a payload whose accounts
    have pairwise distinct identifiers. *)
Theorem uniqueAccountIds_preserved env ls :
  uniqueAccountIds (accounts (Storage.loadData ls)) →
  (∀ account,
     (∀ a, a ∈ accounts (Storage.loadData ls) → Account.id a ≠ generateId env 0) →
     uniqueAccountIds (accounts (Storage.loadData (Storage.addAccount env account ls).2)))
  ∧ (∀ id updates,
       PartialAccount.id updates = None →
       uniqueAccountIds
         (accounts (Storage.loadData (Storage.updateAccount env id updates ls).2)))
  ∧ (∀ id, uniqueAccountIds (accounts (Storage.loadData (Storage.deleteAccount id ls).2)))
  ∧ (∀ data dataAccounts dataRecords targetYear targetMonth mergeMode,
       Json.accounts data = Some dataAccounts →
       Json.records data = Some dataRecords →
       uniqueAccountIds dataAccounts →
       uniqueAccountIds
         (accounts (Storage.loadData
            (Storage.importData env (Parsed data) (Some targetYear) (Some targetMonth)
               mergeMode ls).2))).
Proof.
  intros Hunique. split_and!.
  - intros account Hfresh.
    destruct (addAccount_stored env account ls) as (_ & -> & _).
    unfold uniqueAccountIds. rewrite fmap_app. apply NoDup_app.
    split_and!; [done | | apply NoDup_singleton].
    intros i (a & -> & Ha)%list_elem_of_fmap Heq%list_elem_of_singleton.
    by apply (Hfresh a).
  - intros id updates Hid.
    destruct (list_find (λ a, Account.id a = id) (accounts (Storage.loadData ls)))
      as [[index oldAccount]|] eqn:Hfind.
    + destruct (updateAccount_in_place env id updates ls index oldAccount Hfind)
        as (_ & _ & _ & Hids & _).
      unfold uniqueAccountIds. by rewrite (Hids Hid).
    + unfold Storage.updateAccount. by rewrite Hfind.
  - intros id. unfold Storage.deleteAccount, findIndex.
    destruct (list_find _ (accounts (Storage.loadData ls))) as [[index a]|]; [|done].
    simpl. rewrite loadData_saveData. simpl.
    eapply sublist_NoDup; [exact Hunique|]. apply fmap_sublist, sublist_delete.
  - intros data dataAccounts dataRecords targetYear targetMonth mergeMode Ha Hr Hpayload.
    unfold Storage.importData. rewrite Ha, Hr. simpl. rewrite loadData_saveData. simpl.
    unfold uniqueAccountIds. rewrite fmap_app. apply NoDup_app. split_and!.
    + done.
    + intros i Hi (a & -> & [Hnew _]%list_elem_of_filter)%list_elem_of_fmap. done.
    + eapply sublist_NoDup; [exact Hpayload|]. apply fmap_sublist, sublist_filter.
Qed.

Lemma walletAndCard_unique : uniqueAccountIds (accounts (Storage.loadData walletAndCard)).
Proof. apply (bool_decide_unpack _). by vm_compute. Qed.

Lemma uniqueAccountIds_preserved_witness :
  uniqueAccountIds
    (accounts (Storage.loadData (Storage.addAccount sampleEnv walletAccount walletAndCard).2))
  ∧ uniqueAccountIds
      (accounts (Storage.loadData
         (Storage.updateAccount sampleEnv "c" (renameAndSet "Visa" 0) walletAndCard).2)).
Proof.
  destruct (uniqueAccountIds_preserved sampleEnv walletAndCard walletAndCard_unique)
    as (Hadd & Hupdate & _).
  split; [|apply Hupdate; reflexivity].
  apply Hadd. intros a Ha.
  apply elem_of_cons in Ha as [-> | Ha%list_elem_of_singleton]; [done | by subst a].
Defined.

(** ** Exporting everything *)

(** X10. Importing, with no target period, what [exportData] produced
    gives back the whole document, settings included, whatever was
    stored where it is imported. *)
Theorem exportData_import_round_trip env targetYear targetMonth mergeMode
    (ls target : LocalStorage) :
  targetYear = None ∨ targetMonth = None →
  let result :=
    Storage.importData env (Storage.exportData ls) targetYear targetMonth mergeMode target in
  result.1 = true ∧ Storage.loadData result.2 = Storage.loadData ls.
Proof.
  intros Hnone. simpl. unfold Storage.exportData, Storage.importData. simpl.
  assert (Storage.loadData ls
          = {| accounts := accounts (Storage.loadData ls);
               records := records (Storage.loadData ls);
               logs := logs (Storage.loadData ls);
               settings := settings (Storage.loadData ls);
               version := Storage.CURRENT_VERSION |}) as Hload.
  { by destruct ls as [[|parsed]|]. }
  destruct Hnone as [-> | ->]; [|destruct targetYear];
    (split; [done|]); simpl; rewrite loadData_saveData; simpl;
    rewrite Hload at 2; by destruct (settings (Storage.loadData ls)).
Qed.

Lemma exportData_import_round_trip_witness :
  Storage.loadData
    (Storage.importData sampleEnv (Storage.exportData aprilAndMay) None None merge
       walletAndCard).2
  = Storage.loadData aprilAndMay.
Proof.
  exact (proj2 (exportData_import_round_trip sampleEnv None None merge aprilAndMay
                  walletAndCard (or_introl eq_refl))).
Defined.

(** ** Logs are only appended *)

(** X11. [addAccount], [updateAccount], [setMonthlyRecord],
    [addRecordLog] and an import into a target month in merge mode
    keep the logs there were, unchanged and in front of those they
    add; [deleteMonthlyRecord] and [copyLastMonthBalances] leave the
    logs as they were. *)
Theorem logs_append_only env ls :
  let before := logs (Storage.loadData ls) in
  (∀ account,
     before `prefix_of` logs (Storage.loadData (Storage.addAccount env account ls).2))
  ∧ (∀ id updates,
       before `prefix_of` logs (Storage.loadData (Storage.updateAccount env id updates ls).2))
  ∧ (∀ a y m b,
       before `prefix_of` logs (Storage.loadData (Storage.setMonthlyRecord env a y m b ls).2))
  ∧ (∀ log, before `prefix_of` logs (Storage.loadData (Storage.addRecordLog env log ls).2))
  ∧ (∀ data dataAccounts dataRecords targetYear targetMonth,
       Json.accounts data = Some dataAccounts →
       Json.records data = Some dataRecords →
       before `prefix_of`
         logs (Storage.loadData
                 (Storage.importData env (Parsed data) (Some targetYear) (Some targetMonth)
                    merge ls).2))
  ∧ (∀ recordId,
       logs (Storage.loadData (Storage.deleteMonthlyRecord recordId ls).2) = before)
  ∧ (∀ y m, logs (Storage.loadData (Calculator.copyLastMonthBalances env y m ls)) = before).
Proof.
  simpl. split_and!.
  - intros account. destruct (addAccount_stored env account ls) as (_ & _ & [logId ->] & _).
    by eexists.
  - intros id updates.
    destruct (list_find (λ a, Account.id a = id) (accounts (Storage.loadData ls)))
      as [[index oldAccount]|] eqn:Hfind.
    + destruct (updateAccount_found env id updates ls index oldAccount Hfind)
        as (_ & _ & _ & _ & changeId & editId & ->).
      by eexists.
    + unfold Storage.updateAccount. by rewrite Hfind.
  - intros a y m b.
    pose proof (setMonthlyRecord_logged env a y m b ls) as [Hlogs _]. simpl in Hlogs.
    destruct (Storage.getAccountById a ls) as [account|]; [|by rewrite Hlogs].
    destruct Hlogs as [Hsame Hdiff].
    match type of Hsame with (?old = _ → _) => destruct (decide (old = b)) as [Heq | Hne] end.
    + by rewrite Hsame.
    + rewrite Hdiff by done. by eexists.
  - intros log. unfold Storage.addRecordLog. simpl. rewrite loadData_saveData. simpl.
    by eexists.
  - intros data dataAccounts dataRecords targetYear targetMonth Ha Hr.
    destruct (importData_into_month env data dataAccounts dataRecords targetYear targetMonth
                merge ls Ha Hr) as (_ & _ & _ & _ & (imported & Himported & _) & _).
    by exists imported.
  - intros recordId. unfold Storage.deleteMonthlyRecord.
    destruct (findIndex _ _); [|done]. simpl. by rewrite loadData_saveData.
  - intros y m. by destruct (copyLastMonthBalances_load env y m ls) as (_ & _ & -> & _).
Qed.

Lemma logs_append_only_witness :
  logs (Storage.loadData aprilAndMay)
    `prefix_of`
  logs (Storage.loadData
          (Storage.importData sampleEnv (Storage.exportData aprilAndMay) (Some 2024) (Some 6)
             merge aprilAndMay).2).
Proof.
  destruct (logs_append_only sampleEnv aprilAndMay) as (_ & _ & _ & _ & Himport & _).
  eapply Himport; reflexivity.
Defined.

(** ** Sorting *)

Section sort_facts.
Context {A : Type} (compare : A → A → Z).

Lemma insertSorted_perm x l : insertSorted compare x l ≡ₚ x :: l.
Proof.
  induction l as [|y l IH]; simpl; [done|].
  case_decide; [done|]. rewrite IH. apply Permutation_swap.
Qed.

Lemma sort_perm l : sort compare l ≡ₚ l.
Proof.
  unfold sort. induction l as [|x l IH]; simpl; [done|].
  by rewrite insertSorted_perm, IH.
Qed.

(** Elements that compare equal keep their order. *)
Lemma sort_stable (P : A → Prop) `{∀ x, Decision (P x)} l :
  (∀ x y, P x → P y → compare x y ≤ 0) →
  filter P (sort compare l) = filter P l.
Proof.
  intros Hclass.
  assert (∀ x s, filter P (insertSorted compare x s) = filter P (x :: s)) as Hins.
  { intros x s. induction s as [|y s IH]; simpl; [done|].
    case_decide as Hxy; [done|].
    rewrite filter_cons, IH, !filter_cons.
    destruct (decide (P y)) as [Hy|]; [|done].
    destruct (decide (P x)) as [Hx|]; [|done].
    destruct Hxy. by apply Hclass. }
  unfold sort. induction l as [|x l IH]; simpl; [done|].
  by rewrite Hins, !filter_cons, IH.
Qed.

Lemma sort_sorted (R : relation A) `{!Transitive R} l :
  (∀ x y, compare x y ≤ 0 → R x y) →
  (∀ x y, ¬ compare x y ≤ 0 → R y x) →
  StronglySorted R (sort compare l).
Proof.
  intros Hle Hgt.
  assert (∀ x s, StronglySorted R s → StronglySorted R (insertSorted compare x s)) as Hins.
  { intros x s Hs. induction Hs as [|y s Hs IH Hy]; simpl.
    - repeat constructor.
    - case_decide as Hxy.
      + constructor; [by constructor|]. constructor; [by apply Hle|].
        eapply Forall_impl; [exact Hy|]. intros z Hz. by transitivity y; [apply Hle|].
      + constructor; [done|].
        rewrite insertSorted_perm. constructor; [by apply Hgt | done]. }
  unfold sort. induction l as [|x l IH]; simpl; [constructor | by apply Hins].
Qed.
End sort_facts.

(** ** Reading the logs *)

#[local] Instance notOlder_trans : Transitive notOlder.
Proof. unfold notOlder. intros a b c ? ?. lia. Qed.

Lemma sort_newestFirst (l : list RecordLog.t) :
  sort Storage.newestFirst l ≡ₚ l
  ∧ StronglySorted notOlder (sort Storage.newestFirst l)
  ∧ ∀ t, filter (λ x, RecordLog.timestamp x = t) (sort Storage.newestFirst l)
         = filter (λ x, RecordLog.timestamp x = t) l.
Proof.
  split_and!.
  - apply sort_perm.
  - apply sort_sorted; [apply _ | |]; unfold Storage.newestFirst, notOlder; intros; lia.
  - intros t. apply sort_stable. unfold Storage.newestFirst. intros x y -> ->. lia.
Qed.

(** X12. [getRecordLogs] returns the logs of the year, and of the
    month when one is given, and no other; [getRecordLogsByAccount]
    those of the account.  Both return them newest first, logs with
    the same timestamp in the order they have in the document. *)
Theorem getRecordLogs_sorted year month accountId ls :
  let all := logs (Storage.loadData ls) in
  let byPeriod := Storage.getRecordLogs year month ls in
  let byAccount := Storage.getRecordLogsByAccount accountId ls in
  byPeriod ≡ₚ filter (Storage.inPeriod year month) all
  ∧ StronglySorted notOlder byPeriod
  ∧ (∀ t, filter (λ x, RecordLog.timestamp x = t) byPeriod
          = filter (λ x, RecordLog.timestamp x = t) (filter (Storage.inPeriod year month) all))
  ∧ byAccount ≡ₚ filter (λ l, RecordLog.accountId l = accountId) all
  ∧ StronglySorted notOlder byAccount
  ∧ (∀ t, filter (λ x, RecordLog.timestamp x = t) byAccount
          = filter (λ x, RecordLog.timestamp x = t)
                   (filter (λ l, RecordLog.accountId l = accountId) all)).
Proof.
  simpl. unfold Storage.getRecordLogs, Storage.getRecordLogsByAccount.
  destruct (sort_newestFirst (filter (Storage.inPeriod year month) (logs (Storage.loadData ls))))
    as (? & ? & ?).
  destruct (sort_newestFirst
              (filter (λ l, RecordLog.accountId l = accountId) (logs (Storage.loadData ls))))
    as (? & ? & ?).
  by split_and!.
Qed.

(** X13. [deleteRecordLog] removes one log, the first whose id is
    [logId], keeps every other log, the accounts, the records and the
    settings, and returns [true]; when no log has that id it returns
    [false] and the stored document is as it was. *)
Theorem deleteRecordLog_frame logId ls :
  (∀ l1 l l2,
     logs (Storage.loadData ls) = l1 ++ l :: l2 →
     RecordLog.id l = logId →
     (∀ x, x ∈ l1 → RecordLog.id x ≠ logId) →
     let result := Storage.deleteRecordLog logId ls in
     let before := Storage.loadData ls in
     let after := Storage.loadData result.2 in
     result.1 = true
     ∧ logs after = l1 ++ l2
     ∧ accounts after = accounts before
     ∧ records after = records before
     ∧ settings after = settings before)
  ∧ ((∀ x, x ∈ logs (Storage.loadData ls) → RecordLog.id x ≠ logId) →
     Storage.deleteRecordLog logId ls = (false, ls)).
Proof.
  split.
  - intros l1 l l2 Hlogs Hid Hl1. simpl.
    unfold Storage.deleteRecordLog, findIndex.
    rewrite Hlogs, (list_find_split _ l1 l2 l) by done. simpl.
    rewrite loadData_saveData; simpl. by rewrite delete_middle.
  - intros Hnone. unfold Storage.deleteRecordLog, findIndex.
    by rewrite list_find_unknown.
Qed.

Lemma deleteRecordLog_frame_witness :
  logs (Storage.loadData (Storage.deleteRecordLog "l1" aprilAndMay).2) = []
  ∧ Storage.deleteRecordLog "l9" aprilAndMay = (false, aprilAndMay).
Proof.
  destruct (deleteRecordLog_frame "l1" aprilAndMay) as [Hfound _].
  destruct (deleteRecordLog_frame "l9" aprilAndMay) as [_ Hmissing].
  split.
  - refine (proj1 (proj2 (Hfound [] (RecordLog.mk "l1" "a" "Wallet" 2024 5 0 5 1
                                       (Some balance_change)) [] eq_refl eq_refl _))).
    intros x Hx. by apply not_elem_of_nil in Hx.
  - apply Hmissing. intros x Hx%list_elem_of_singleton. by subst x.
Defined.


(** ** The totals of the repository *)

Lemma monthStep_fold accs rs :
  ∀ assets liabilities,
    foldl (Storage.monthStep accs) (assets, liabilities) rs
    = (foldl (λ totalAssets record,
                match find (λ a, Account.id a = MonthlyRecord.accountId record) accs with
                | None => totalAssets
                | Some account =>
                    if decide (Account.type account ≠ credit ∧ Account.type account ≠ debt)
                    then totalAssets + MonthlyRecord.balance record
                    else totalAssets
                end) assets rs,
       foldl (λ totalLiabilities record,
                match find (λ a, Account.id a = MonthlyRecord.accountId record) accs with
                | None => totalLiabilities
                | Some account =>
                    if decide (Account.type account = credit ∨ Account.type account = debt)
                    then totalLiabilities + Z.abs (MonthlyRecord.balance record)
                    else totalLiabilities
                end) liabilities rs).
Proof.
  induction rs as [|r rs IH]; intros assets liabilities; [done|].
  cbn [foldl]. unfold Storage.monthStep at 2.
  destruct (find _ accs) as [account|]; [|apply IH].
  destruct (decide (Account.type account = credit ∨ Account.type account = debt)) as [Hd | Hd].
  - rewrite decide_False by tauto. apply IH.
  - rewrite decide_True by tauto. apply IH.
Qed.

Lemma foldl_nonneg {A} (f : Z → A → Z) (l : list A) :
  (∀ t a, 0 ≤ t → 0 ≤ f t a) → ∀ t, 0 ≤ t → 0 ≤ foldl f t l.
Proof.
  intros Hf. induction l as [|x l IH]; intros t Ht; [done|]. simpl. by apply IH, Hf.
Qed.

(** X15. The three month totals of the repository, each computed by
    a loop of its own over the records of the month, agree:
    [calculateMonthNetWorth] is [calculateMonthTotalAssets] less
    [calculateMonthTotalLiabilities]; the liabilities are never
    negative; and in a month without records all three are [0],
    whatever the baseline balances of the accounts. *)
Theorem calculateMonth_totals_agree year month ls :
  Storage.calculateMonthNetWorth year month ls
  = Storage.calculateMonthTotalAssets year month ls
    - Storage.calculateMonthTotalLiabilities year month ls
  ∧ 0 ≤ Storage.calculateMonthTotalLiabilities year month ls
  ∧ (Storage.getMonthlyRecordsByMonth year month ls = [] →
     Storage.calculateMonthNetWorth year month ls = 0
     ∧ Storage.calculateMonthTotalAssets year month ls = 0
     ∧ Storage.calculateMonthTotalLiabilities year month ls = 0).
Proof.
  unfold Storage.calculateMonthNetWorth, Storage.calculateMonthTotalAssets,
    Storage.calculateMonthTotalLiabilities, Storage.getMonthlyRecordsByMonth.
  simpl. rewrite monthStep_fold. simpl. split_and!.
  - done.
  - apply foldl_nonneg; [|done]. intros t r Ht.
    destruct (find _ _); [|done]. case_decide; lia.
  - by intros ->.
Qed.

Lemma calculateMonth_totals_agree_witness :
  Storage.calculateMonthNetWorth 2024 6 aprilAndMay = 0
  ∧ Calculator.calculateNetWorth 2024 6 oneAccount = 100
  ∧ Storage.calculateMonthNetWorth 2024 6 oneAccount = 0.
Proof.
  split; [|split; [reflexivity|]].
  - exact (proj1 (proj2 (proj2 (calculateMonth_totals_agree 2024 6 aprilAndMay)) eq_refl)).
  - exact (proj1 (proj2 (proj2 (calculateMonth_totals_agree 2024 6 oneAccount)) eq_refl)).
Defined.

(** ** Signs and sums of the engine's totals *)

(** X16. The total liabilities and the debt-in total are never
    negative, so the net worth is never more than the total assets. *)
Theorem liabilities_nonnegative year month ls :
  0 ≤ Calculator.calculateTotalLiabilities year month ls
  ∧ 0 ≤ Calculator.calculateDebtIn year month ls
  ∧ Calculator.calculateNetWorth year month ls ≤ Calculator.calculateTotalAssets year month ls.
Proof.
  assert (0 ≤ Calculator.calculateTotalLiabilities year month ls) as Hliab.
  { unfold Calculator.calculateTotalLiabilities. apply foldl_nonneg; [|done].
    intros t a Ht. unfold Calculator.liabilitiesStep.
    destruct (Account.isHidden a); [done|]. simpl. repeat case_decide; destruct_and?; lia. }
  split_and!; [done | | unfold Calculator.calculateNetWorth; lia].
  unfold Calculator.calculateDebtIn. apply foldl_nonneg; [|done].
  intros t a Ht. unfold Calculator.debtInStep. case_decide; lia.
Qed.

Lemma foldl_additive_sum {A} (f : Z → A → Z) (c : A → Z) :
  (∀ t a, f t a = t + c a) → ∀ l t, foldl f t l = t + sumZ (c <$> l).
Proof.
  intros Hf. unfold sumZ. induction l as [|x l IH]; intros t; [simpl; lia|].
  rewrite fmap_cons. cbn [foldl foldr]. rewrite IH, Hf. lia.
Qed.

Lemma sumZ_minus {A} (f g : A → Z) (l : list A) :
  sumZ (f <$> l) - sumZ (g <$> l) = sumZ ((λ a, f a - g a) <$> l).
Proof.
  unfold sumZ. induction l as [|x l IH]; [done|].
  rewrite !fmap_cons. cbn [foldr]. lia.
Qed.

(** The net worth as a sum over the accounts. *)
Lemma netWorth_sum year month ls :
  Calculator.calculateNetWorth year month ls
  = sumZ (netContribution (Storage.getMonthlyRecordsByMonth year month ls)
            <$> Storage.getAllAccounts ls).
Proof.
  unfold Calculator.calculateNetWorth, Calculator.calculateTotalAssets,
    Calculator.calculateTotalLiabilities.
  set (rs := Storage.getMonthlyRecordsByMonth year month ls).
  rewrite (foldl_additive_sum _ (Calculator.assetsStep rs 0))
    by (intros; apply assetsStep_additive).
  rewrite (foldl_additive_sum _ (Calculator.liabilitiesStep rs 0))
    by (intros; apply liabilitiesStep_additive).
  rewrite !Z.add_0_l, sumZ_minus. f_equal.
  apply list_fmap_ext. intros i a _. apply steps_netContribution.
Qed.

(** X17. The net worth of a month is the sum, over the accounts, of
    what each adds: nothing for a hidden account; for a visible one
    its balance of the month, counted negatively for a credit card
    (an overpayment, a negative balance, so counts positively) and as
    a negative magnitude for a debt. *)
Theorem netWorth_closed_form year month ls :
  Calculator.calculateNetWorth year month ls
  = sumZ (netContribution (Storage.getMonthlyRecordsByMonth year month ls)
            <$> Storage.getAllAccounts ls).
Proof. exact (netWorth_sum year month ls). Qed.

(** ** The flag [includeInTotal] *)

Lemma foldl_insert_same {A B} (f : B → A → B) (l : list A) i x y :
  l !! i = Some x → (∀ t, f t y = f t x) → ∀ t, foldl f t (<[i := y]> l) = foldl f t l.
Proof.
  revert i. induction l as [|z l IH]; intros i Hi Hf t; [done|].
  destruct i as [|i]; simpl in *.
  - injection Hi as ->. by rewrite Hf.
  - by apply IH.
Qed.

(** X18. Setting [includeInTotal] on an account, to either value,
    changes none of the five totals of any month: the engine never
    reads the flag. *)
Theorem includeInTotal_ignored env id b year month ls :
  let after := (Storage.updateAccount env id (setIncludeInTotal b) ls).2 in
  Calculator.calculateTotalAssets year month after
  = Calculator.calculateTotalAssets year month ls
  ∧ Calculator.calculateTotalLiabilities year month after
    = Calculator.calculateTotalLiabilities year month ls
  ∧ Calculator.calculateNetWorth year month after = Calculator.calculateNetWorth year month ls
  ∧ Calculator.calculateLoanOut year month after = Calculator.calculateLoanOut year month ls
  ∧ Calculator.calculateDebtIn year month after = Calculator.calculateDebtIn year month ls.
Proof.
  simpl.
  destruct (list_find (λ a, Account.id a = id) (accounts (Storage.loadData ls)))
    as [[index oldAccount]|] eqn:Hfind.
  - destruct (updateAccount_found env id (setIncludeInTotal b) ls index oldAccount Hfind)
      as (_ & Haccs & _ & Hrecs & _).
    simpl in Haccs, Hrecs.
    apply list_find_Some in Hfind as (Hindex & _ & _).
    unfold Calculator.calculateNetWorth, Calculator.calculateTotalAssets,
      Calculator.calculateTotalLiabilities, Calculator.calculateLoanOut,
      Calculator.calculateDebtIn, Storage.getAllAccounts, Storage.getMonthlyRecordsByMonth.
    rewrite Haccs, Hrecs.
    rewrite !(foldl_insert_same _ _ _ _ _ Hindex); done.
  - unfold Storage.updateAccount. by rewrite Hfind.
Qed.

(** ** Creating an account and deleting it *)

Lemma filter_all {A} (P : A → Prop) `{∀ x, Decision (P x)} (l : list A) :
  (∀ x, x ∈ l → P x) → filter P l = l.
Proof.
  induction l as [|x l IH]; intros HP; [done|].
  rewrite filter_cons_True by (apply HP; left). f_equal. apply IH.
  intros y Hy. apply HP. by right.
Qed.

(** X19. When the generated identifier is new to the document, the
    account of no account, record or log, deleting the account that
    [addAccount] just created gives back the document there was
    before it was created: its record and its creation log go with
    it. *)
Theorem addAccount_then_delete env account ls :
  (∀ a, a ∈ accounts (Storage.loadData ls) → Account.id a ≠ generateId env 0) →
  (∀ r, r ∈ records (Storage.loadData ls) → MonthlyRecord.accountId r ≠ generateId env 0) →
  (∀ l, l ∈ logs (Storage.loadData ls) → RecordLog.accountId l ≠ generateId env 0) →
  let created := Storage.addAccount env account ls in
  let deleted := Storage.deleteAccount (Account.id created.1) created.2 in
  deleted.1 = true ∧ Storage.loadData deleted.2 = Storage.loadData ls.
Proof.
  intros Haccounts Hrecords Hlogs. simpl.
  destruct (addAccount_stored env account ls)
    as (Hresult & Haccs & [logId Hlog] & Hzero & Hnonzero & Hsets).
  simpl in *. rewrite Hresult. simpl.
  unfold Storage.deleteAccount, findIndex. rewrite Haccs.
  rewrite (list_find_split _ _ [] _) by done. simpl.
  rewrite loadData_saveData, delete_middle, app_nil_r, Hlog, Hsets.
  split; [done|].
  assert (filter (λ l, RecordLog.accountId l ≠ generateId env 0)
            (logs (Storage.loadData ls) ++
             [RecordLog.mk logId (generateId env 0) (Account.name account)
                (Storage.currentYear env) (Storage.currentMonth env) 0
                (Account.balance account) (Date_now env) (Some account_create)])
          = logs (Storage.loadData ls)) as ->.
  { rewrite filter_app, filter_cons_False, filter_nil, app_nil_r by (intros Hne; by apply Hne).
    by apply filter_all. }
  assert (filter (λ r, MonthlyRecord.accountId r ≠ generateId env 0)
            (records (Storage.loadData (Storage.addAccount env account ls).2))
          = records (Storage.loadData ls)) as ->.
  { destruct (decide (Account.balance account = 0)) as [Hz | Hnz].
    - rewrite (Hzero Hz). by apply filter_all.
    - destruct (Hnonzero Hnz) as [recordId ->].
      rewrite filter_app, filter_cons_False, filter_nil, app_nil_r
        by (intros Hne; by apply Hne).
      by apply filter_all. }
  by destruct ls as [[|parsed]|].
Qed.

Lemma addAccount_then_delete_witness :
  let created := Storage.addAccount sampleEnv walletAccount aprilAndMay in
  Storage.loadData (Storage.deleteAccount (Account.id created.1) created.2).2
  = Storage.loadData aprilAndMay.
Proof.
  refine (proj2 (addAccount_then_delete sampleEnv walletAccount aprilAndMay _ _ _)).
  - intros a Ha%list_elem_of_singleton. by subst a.
  - intros r Hr.
    apply elem_of_cons in Hr as [-> | Hr%list_elem_of_singleton]; [done | by subst r].
  - intros l Hl%list_elem_of_singleton. by subst l.
Defined.

(** ** The last recorded month and the months of a year *)

Lemma foldl_max_spec (l : list Z) : ∀ m,
  (m ≤ foldl Z.max m l)
  ∧ (∀ x, x ∈ l → x ≤ foldl Z.max m l)
  ∧ (foldl Z.max m l = m ∨ foldl Z.max m l ∈ l).
Proof.
  induction l as [|y l IH]; intros m; simpl.
  - split_and!; [lia | | by left]. intros x Hx. by apply not_elem_of_nil in Hx.
  - destruct (IH (Z.max m y)) as (Hge & Hall & Hin). split_and!.
    + lia.
    + intros x [-> | Hx]%elem_of_cons; [lia | by apply Hall].
    + destruct Hin as [-> | Hin]; [|right; by right].
      destruct (Z.max_spec m y) as [[_ ->] | [_ ->]]; [right; by left | by left].
Qed.

(** X20. [getLastRecordedMonth] returns [0] for a year without
    records; for a year with records it returns the month of one of
    them, and no record of the year has a later month. *)
Theorem getLastRecordedMonth_max year ls :
  let last := Calculator.getLastRecordedMonth year ls in
  ((∀ r, r ∈ records (Storage.loadData ls) → MonthlyRecord.year r ≠ year) → last = 0)
  ∧ (∀ r, r ∈ records (Storage.loadData ls) → MonthlyRecord.year r = year →
       MonthlyRecord.month r ≤ last
       ∧ ∃ r', r' ∈ records (Storage.loadData ls)
               ∧ MonthlyRecord.year r' = year ∧ MonthlyRecord.month r' = last).
Proof.
  simpl. unfold Calculator.getLastRecordedMonth.
  set (yearRecords := filter (λ r, MonthlyRecord.year r = year) (records (Storage.loadData ls))).
  split.
  - intros Hnone. assert (yearRecords = []) as ->; [|done].
    apply elem_of_nil_inv. intros r [Hy Hr]%list_elem_of_filter. by apply (Hnone r).
  - intros r Hr Hy.
    assert (r ∈ yearRecords) as Hin by (by apply list_elem_of_filter).
    assert (∀ m, m ∈ MonthlyRecord.month <$> yearRecords →
                 ∃ r', r' ∈ records (Storage.loadData ls)
                       ∧ MonthlyRecord.year r' = year ∧ MonthlyRecord.month r' = m) as Hback.
    { intros m (r' & -> & [Hy' Hr']%list_elem_of_filter)%list_elem_of_fmap. by exists r'. }
    apply (list_elem_of_fmap_2 MonthlyRecord.month) in Hin.
    destruct (MonthlyRecord.month <$> yearRecords) as [|m months]; [by apply not_elem_of_nil in Hin|].
    destruct (foldl_max_spec months m) as (Hge & Hall & Hmem).
    split.
    + apply elem_of_cons in Hin as [-> | Hin]; [done | by apply Hall].
    + apply Hback. destruct Hmem as [-> | Hmem]; [by left | by right].
Qed.

Lemma getLastRecordedMonth_max_witness :
  Calculator.getLastRecordedMonth 2023 aprilAndMay = 0
  ∧ 4 ≤ Calculator.getLastRecordedMonth 2024 aprilAndMay.
Proof.
  split.
  - apply (proj1 (getLastRecordedMonth_max 2023 aprilAndMay)). intros r Hr.
    apply elem_of_cons in Hr as [-> | Hr%list_elem_of_singleton]; [done | by subst r].
  - refine (proj1 (proj2 (getLastRecordedMonth_max 2024 aprilAndMay)
                     (MonthlyRecord.mk "r1" "a" 2024 4 700) _ eq_refl)).
    by left.
Defined.

Lemma getMonthlyNetWorth_fields year month ls :
  let entry := Calculator.getMonthlyNetWorth year month ls in
  MonthlyNetWorth.year entry = year
  ∧ MonthlyNetWorth.month entry = month
  ∧ MonthlyNetWorth.netWorth entry = Calculator.calculateNetWorth year month ls
  ∧ MonthlyNetWorth.change entry
    = Calculator.calculateNetWorth year month ls
      - Calculator.calculateNetWorth (Calculator.previousMonth year month).1
          (Calculator.previousMonth year month).2 ls.
Proof.
  simpl. unfold Calculator.getMonthlyNetWorth.
  by destruct (Calculator.previousMonth year month).
Qed.

(** X21. [getYearlyMonthlyData] returns twelve entries, for the
    months 1 to 12 of the year in order, each with the net worth of
    its month.  The change of an entry is its net worth less that of
    the entry before it, and for the first entry less the net worth
    of December of the year before. *)
Theorem getYearlyMonthlyData_chain year ls :
  let data := Calculator.getYearlyMonthlyData year ls in
  length data = 12%nat
  ∧ (∀ k entry, data !! k = Some entry →
       MonthlyNetWorth.year entry = year
       ∧ MonthlyNetWorth.month entry = Z.of_nat k + 1
       ∧ MonthlyNetWorth.netWorth entry
         = Calculator.calculateNetWorth year (Z.of_nat k + 1) ls)
  ∧ (∀ k previous entry, data !! k = Some previous → data !! S k = Some entry →
       MonthlyNetWorth.change entry
       = MonthlyNetWorth.netWorth entry - MonthlyNetWorth.netWorth previous)
  ∧ (∀ entry, data !! 0%nat = Some entry →
       MonthlyNetWorth.change entry
       = MonthlyNetWorth.netWorth entry - Calculator.calculateNetWorth (year - 1) 12 ls).
Proof.
  cbv zeta. unfold Calculator.getYearlyMonthlyData.
  assert (∀ k entry,
            ((λ month, Calculator.getMonthlyNetWorth year month ls) <$> seqZ 1 12) !! k
            = Some entry →
            entry = Calculator.getMonthlyNetWorth year (Z.of_nat k + 1) ls) as Hlookup.
  { intros k entry Hk. rewrite list_lookup_fmap in Hk.
    destruct (seqZ 1 12 !! k) as [m|] eqn:Hm; [|done].
    apply lookup_seqZ in Hm as [-> _]. injection Hk as <-. f_equal. lia. }
  split_and!.
  - by rewrite length_fmap, length_seqZ.
  - intros k entry Hk. rewrite (Hlookup k entry Hk).
    by destruct (getMonthlyNetWorth_fields year (Z.of_nat k + 1) ls) as (? & ? & ? & _).
  - intros k previous entry Hprev Hentry.
    rewrite (Hlookup _ _ Hprev), (Hlookup _ _ Hentry).
    destruct (getMonthlyNetWorth_fields year (Z.of_nat (S k) + 1) ls) as (_ & _ & -> & ->).
    destruct (getMonthlyNetWorth_fields year (Z.of_nat k + 1) ls) as (_ & _ & -> & _).
    unfold Calculator.previousMonth. rewrite decide_False by lia. simpl.
    repeat f_equal. lia.
  - intros entry Hentry. rewrite (Hlookup _ _ Hentry).
    by destruct (getMonthlyNetWorth_fields year (Z.of_nat 0 + 1) ls) as (_ & _ & -> & ->).
Qed.

Lemma getYearlyMonthlyData_chain_witness :
  let data := Calculator.getYearlyMonthlyData 2024 aprilAndMay in
  ∃ previous entry,
    data !! 3%nat = Some previous ∧ data !! 4%nat = Some entry
    ∧ MonthlyNetWorth.change entry
      = MonthlyNetWorth.netWorth entry - MonthlyNetWorth.netWorth previous.
Proof.
  cbv zeta.
  destruct (getYearlyMonthlyData_chain 2024 aprilAndMay) as (Hlen & _ & Hchain & _).
  destruct (lookup_lt_is_Some_2 (Calculator.getYearlyMonthlyData 2024 aprilAndMay) 3)
    as [previous Hprevious]; [rewrite Hlen; lia|].
  destruct (lookup_lt_is_Some_2 (Calculator.getYearlyMonthlyData 2024 aprilAndMay) 4)
    as [entry Hentry]; [rewrite Hlen; lia|].
  exists previous, entry. split; [exact Hprevious|]. split; [exact Hentry|].
  exact (Hchain 3%nat previous entry Hprevious Hentry).
Defined.

(** ** Groups of accounts *)

Lemma groupOf_Some accs rs config g :
  Calculator.groupOf accs rs config = Some g →
  AccountGroup.type g = AccountTypeConfig.type config
  ∧ AccountGroup.label g = AccountTypeConfig.label config
  ∧ AccountGroup.accounts g = filter (λ a, Account.type a = AccountTypeConfig.type config) accs
  ∧ AccountGroup.accounts g ≠ []
  ∧ AccountGroup.totalBalance g
    = sumZ (Calculator.balanceOf rs <$> AccountGroup.accounts g).
Proof.
  unfold Calculator.groupOf. case_decide as Hlen; [done|]. intros [= <-]. simpl.
  split_and!; try done.
  - intros Hnil. by rewrite Hnil in Hlen.
  - rewrite (foldl_additive_sum _ (Calculator.balanceOf rs)) by done. lia.
Qed.

Lemma groupOf_None accs rs config :
  Calculator.groupOf accs rs config = None →
  filter (λ a, Account.type a = AccountTypeConfig.type config) accs = [].
Proof.
  unfold Calculator.groupOf. case_decide as Hlen; [|done]. intros _.
  by apply nil_length_inv.
Qed.

Lemma ACCOUNT_TYPES_complete type :
  ∃ config, config ∈ Calculator.ACCOUNT_TYPES
            ∧ AccountTypeConfig.type config = type
            ∧ Calculator.getAccountTypeLabel type = AccountTypeConfig.label config.
Proof.
  assert (∃ config,
            find (λ t, AccountTypeConfig.type t = type) Calculator.ACCOUNT_TYPES = Some config
            ∧ Calculator.getAccountTypeLabel type = AccountTypeConfig.label config)
    as (config & Hfind & Hlabel).
  { destruct type; eexists; split; reflexivity. }
  exists config. unfold find in Hfind.
  destruct (list_find _ Calculator.ACCOUNT_TYPES) as [[i c]|] eqn:Hlf; [|done].
  injection Hfind as ->. apply list_find_Some in Hlf as (Hi & Htype & _).
  split_and!; [by eapply list_elem_of_lookup_2 | done | done].
Qed.

Lemma omap_types_sublist accs rs configs :
  AccountGroup.type <$> omap (Calculator.groupOf accs rs) configs
    `sublist_of` AccountTypeConfig.type <$> configs.
Proof.
  induction configs as [|config configs IH]; [done|].
  rewrite fmap_cons. cbn [omap list_omap].
  destruct (Calculator.groupOf accs rs config) as [g|] eqn:Hg.
  - rewrite fmap_cons. destruct (groupOf_Some _ _ _ _ Hg) as (Htype & _). rewrite Htype.
    by apply sublist_skip.
  - by apply sublist_cons.
Qed.

(** X22. [getAccountGroups] groups the visible accounts by type: a
    group is never empty, it holds exactly the visible accounts of its
    type in the order of the document, under the label of the type,
    and its total is the sum of their balances of the current month;
    the groups come in the order cash, debit, credit, digital,
    investment, loan, debt, at most one per type; every visible
    account is in the group of its type, and a hidden account is in
    none. *)
Theorem getAccountGroups_partition env ls :
  let groups := Calculator.getAccountGroups env ls in
  let visible := filter (λ a, Account.isHidden a = false) (Storage.getAllAccounts ls) in
  let records :=
    Storage.getMonthlyRecordsByMonth (Storage.currentYear env) (Storage.currentMonth env) ls in
  (∀ g, g ∈ groups →
     AccountGroup.accounts g ≠ []
     ∧ AccountGroup.accounts g = filter (λ a, Account.type a = AccountGroup.type g) visible
     ∧ AccountGroup.label g = Calculator.getAccountTypeLabel (AccountGroup.type g)
     ∧ AccountGroup.totalBalance g
       = sumZ (Calculator.balanceOf records <$> AccountGroup.accounts g))
  ∧ AccountGroup.type <$> groups
      `sublist_of` [cash; debit; credit; digital; investment; loan; debt]
  ∧ (∀ a, a ∈ visible →
       ∃ g, g ∈ groups ∧ AccountGroup.type g = Account.type a ∧ a ∈ AccountGroup.accounts g)
  ∧ (∀ g a, g ∈ groups → a ∈ AccountGroup.accounts g → Account.isHidden a = false).
Proof.
  simpl. unfold Calculator.getAccountGroups.
  set (visible := filter (λ a, Account.isHidden a = false) (Storage.getAllAccounts ls)).
  set (rs := Storage.getMonthlyRecordsByMonth _ _ ls).
  assert (∀ g, g ∈ omap (Calculator.groupOf visible rs) Calculator.ACCOUNT_TYPES →
            ∃ config, config ∈ Calculator.ACCOUNT_TYPES
                      ∧ Calculator.groupOf visible rs config = Some g) as Hfrom.
  { intros g Hg. by apply list_elem_of_omap in Hg. }
  split_and!.
  - intros g (config & Hconfig & Hg)%Hfrom.
    destruct (groupOf_Some _ _ _ _ Hg) as (Htype & Hlabel & Haccs & Hne & Htotal).
    rewrite Htype. split_and!; try done.
    rewrite Hlabel. clear -Hconfig.
    unfold Calculator.ACCOUNT_TYPES in Hconfig.
    repeat (apply elem_of_cons in Hconfig as [-> | Hconfig]; [reflexivity|]).
    by apply not_elem_of_nil in Hconfig.
  - apply (omap_types_sublist visible rs Calculator.ACCOUNT_TYPES).
  - intros a Ha.
    destruct (ACCOUNT_TYPES_complete (Account.type a)) as (config & Hconfig & Htype & _).
    destruct (Calculator.groupOf visible rs config) as [g|] eqn:Hg.
    + exists g. destruct (groupOf_Some _ _ _ _ Hg) as (Hgt & _ & Haccs & _).
      split_and!.
      * apply list_elem_of_omap. by exists config.
      * congruence.
      * rewrite Haccs. apply list_elem_of_filter. by split.
    + apply groupOf_None in Hg. exfalso.
      exact (filter_nil_not_elem_of _ _ a Hg (eq_sym Htype) Ha).
  - intros g a (config & _ & Hg)%Hfrom Ha.
    destruct (groupOf_Some _ _ _ _ Hg) as (_ & _ & Haccs & _).
    rewrite Haccs in Ha. apply list_elem_of_filter in Ha as [_ Ha].
    by apply list_elem_of_filter in Ha as [Hvisible _].
Qed.

Lemma getAccountGroups_partition_witness :
  ∃ g, g ∈ Calculator.getAccountGroups sampleEnv walletAndCard
       ∧ AccountGroup.type g = credit
       ∧ cardAccount ∈ AccountGroup.accounts g.
Proof.
  refine (proj1 (proj2 (proj2 (getAccountGroups_partition sampleEnv walletAndCard)))
            cardAccount _).
  apply list_elem_of_filter. split; [reflexivity|]. right. by left.
Defined.

Lemma sumZ_cons (x : Z) (l : list Z) : sumZ (x :: l) = x + sumZ l.
Proof. done. Qed.

Lemma omap_totals accs rs configs :
  sumZ (AccountGroup.totalBalance <$> omap (Calculator.groupOf accs rs) configs)
  = sumZ ((λ config,
             sumZ (Calculator.balanceOf rs
                     <$> filter (λ a, Account.type a = AccountTypeConfig.type config) accs))
            <$> configs).
Proof.
  induction configs as [|config configs IH]; [done|].
  rewrite fmap_cons, sumZ_cons. cbn [omap list_omap].
  destruct (Calculator.groupOf accs rs config) as [g|] eqn:Hg.
  - destruct (groupOf_Some _ _ _ _ Hg) as (_ & _ & Haccs & _ & Htotal).
    rewrite fmap_cons, sumZ_cons, IH, Htotal, Haccs. done.
  - apply groupOf_None in Hg. rewrite Hg, IH. done.
Qed.

(** X23. The totals of the groups add up to the sum of the balances
    of the current month of all visible accounts: no visible account
    is counted twice or left out. *)
Theorem getAccountGroups_totals env ls :
  let groups := Calculator.getAccountGroups env ls in
  let visible := filter (λ a, Account.isHidden a = false) (Storage.getAllAccounts ls) in
  let records :=
    Storage.getMonthlyRecordsByMonth (Storage.currentYear env) (Storage.currentMonth env) ls in
  sumZ (AccountGroup.totalBalance <$> groups)
  = sumZ (Calculator.balanceOf records <$> visible).
Proof.
  simpl. unfold Calculator.getAccountGroups. rewrite omap_totals.
  set (visible := filter (λ a, Account.isHidden a = false) (Storage.getAllAccounts ls)).
  set (rs := Storage.getMonthlyRecordsByMonth _ _ ls).
  unfold Storage.currentYear, Storage.currentMonth. fold rs.
  unfold Calculator.ACCOUNT_TYPES. rewrite !fmap_cons, fmap_nil. cbn [AccountTypeConfig.type].
  induction visible as [|a visible IH].
  - done.
  - rewrite !sumZ_cons in IH. rewrite fmap_cons, !sumZ_cons, !filter_cons.
    destruct (Account.type a); repeat case_decide; try done;
      rewrite ?fmap_cons, ?sumZ_cons; lia.
Qed.

(** ** The history of an account *)

#[local] Instance notLater_trans : Transitive notLater.
Proof. unfold notLater, notAfter. intros a b c ? ?. lia. Qed.

Lemma slice_suffix {A} (start : Z) (l : list A) : slice start l `suffix_of` l.
Proof. unfold slice. apply suffix_drop. Qed.

Lemma slice_last {A} (n : Z) (l : list A) :
  0 < n → length (slice (- n) l) = Z.to_nat (Z.min n (Z.of_nat (length l))).
Proof.
  intros Hn. unfold slice. rewrite decide_True by lia. rewrite length_drop. lia.
Qed.

Lemma slice_zero {A} (l : list A) : slice (- 0) l = l.
Proof. unfold slice. rewrite decide_False by lia. by rewrite Z.min_l by lia. Qed.

(** X24. [getAccountHistory] sorts the records of the account by year
    and month and returns the end of that list: the records returned
    are records of the account, in chronological order, and they are
    the latest ones; asked for [months > 0] it returns that many, or
    all when there are fewer; asked for [0] months it returns them
    all.  When [months] is left out it is [12]. *)
Theorem getAccountHistory_latest accountId months ls :
  let history :=
    sort Calculator.chronological (Storage.getMonthlyRecordsByAccount accountId ls) in
  let result := Calculator.getAccountHistory accountId months ls in
  let n := default 12 months in
  history ≡ₚ Storage.getMonthlyRecordsByAccount accountId ls
  ∧ StronglySorted notLater history
  ∧ result `suffix_of` history
  ∧ StronglySorted notLater result
  ∧ (∀ r, r ∈ result →
       MonthlyRecord.accountId r = accountId ∧ r ∈ records (Storage.loadData ls))
  ∧ (0 < n → length result = Z.to_nat (Z.min n (Z.of_nat (length history))))
  ∧ (n = 0 → result = history).
Proof.
  simpl. unfold Calculator.getAccountHistory, Storage.getMonthlyRecordsByAccount.
  set (mine := filter (λ r, MonthlyRecord.accountId r = accountId)
                      (records (Storage.loadData ls))).
  assert (StronglySorted notLater (sort Calculator.chronological mine)) as Hsorted.
  { apply sort_sorted; [apply _ | |];
      unfold Calculator.chronological, notLater, notAfter; intros x y; case_decide; lia. }
  pose proof (slice_suffix (- default 12 months) (sort Calculator.chronological mine))
    as Hsuffix.
  split_and!.
  - apply sort_perm.
  - done.
  - done.
  - destruct Hsuffix as [k Hk]. rewrite Hk in Hsorted.
    by apply StronglySorted_app_1_r in Hsorted.
  - intros r Hr.
    assert (r ∈ mine) as Hmine.
    { rewrite <- (sort_perm Calculator.chronological mine).
      destruct Hsuffix as [k ->]. apply elem_of_app. by right. }
    by apply list_elem_of_filter in Hmine.
  - apply slice_last.
  - intros ->. apply slice_zero.
Qed.

Lemma getAccountHistory_latest_witness :
  length (Calculator.getAccountHistory "a" (Some 1) aprilAndMay) = 1%nat
  ∧ Calculator.getAccountHistory "a" (Some 0) aprilAndMay
    = sort Calculator.chronological (Storage.getMonthlyRecordsByAccount "a" aprilAndMay).
Proof.
  destruct (getAccountHistory_latest "a" (Some 1) aprilAndMay)
    as (_ & _ & _ & _ & _ & Hone & _).
  destruct (getAccountHistory_latest "a" (Some 0) aprilAndMay)
    as (_ & _ & _ & _ & _ & _ & Hzero).
  split; [exact (Hone eq_refl) | exact (Hzero eq_refl)].
Defined.

(** ** The range of an export *)

Lemma inRange_chronological startYear startMonth endYear endMonth y m :
  0 ≤ startMonth < 100 → 0 ≤ endMonth < 100 → 0 ≤ m < 100 →
  Storage.inRange startYear startMonth endYear endMonth y m
  ↔ notAfter startYear startMonth y m ∧ notAfter y m endYear endMonth.
Proof. unfold Storage.inRange, notAfter. lia. Qed.

(** X25. With months between 0 and 99, the [year * 100 + month]
    comparison of [exportDataByRange] is the chronological one: a
    record, or a log, is exported exactly when its month is not before
    the start month and not after the end month.  A range whose start
    is after its end exports no such record and no such log.  The
    accounts are all exported. *)
Theorem exportDataByRange_chronological startYear startMonth endYear endMonth ls :
  0 ≤ startMonth < 100 → 0 ≤ endMonth < 100 →
  let exported := Storage.exportDataByRange startYear startMonth endYear endMonth ls in
  let data := Storage.loadData ls in
  (∀ r, 0 ≤ MonthlyRecord.month r < 100 →
     r ∈ exportedRecords exported
     ↔ r ∈ records data
       ∧ notAfter startYear startMonth (MonthlyRecord.year r) (MonthlyRecord.month r)
       ∧ notAfter (MonthlyRecord.year r) (MonthlyRecord.month r) endYear endMonth)
  ∧ (∀ l, 0 ≤ RecordLog.month l < 100 →
       l ∈ exportedLogs exported
       ↔ l ∈ logs data
         ∧ notAfter startYear startMonth (RecordLog.year l) (RecordLog.month l)
         ∧ notAfter (RecordLog.year l) (RecordLog.month l) endYear endMonth)
  ∧ (¬ notAfter startYear startMonth endYear endMonth →
     (∀ r, r ∈ exportedRecords exported → ¬ 0 ≤ MonthlyRecord.month r < 100)
     ∧ (∀ l, l ∈ exportedLogs exported → ¬ 0 ≤ RecordLog.month l < 100))
  ∧ (∃ exportedData, exported = Parsed exportedData
                     ∧ Json.accounts exportedData = Some (accounts data)).
Proof.
  intros Hstart Hend. simpl. split_and!.
  - intros r Hm. rewrite list_elem_of_filter, inRange_chronological by done. tauto.
  - intros l Hm. rewrite list_elem_of_filter, inRange_chronological by done. tauto.
  - intros Hinverted. split.
    + intros r [Hin _]%list_elem_of_filter Hm. apply Hinverted.
      apply inRange_chronological in Hin; [|done..].
      unfold notAfter in *. lia.
    + intros l [Hin _]%list_elem_of_filter Hm. apply Hinverted.
      apply inRange_chronological in Hin; [|done..].
      unfold notAfter in *. lia.
  - by eexists.
Qed.

Lemma exportDataByRange_chronological_witness :
  MonthlyRecord.mk "r2" "a" 2024 5 5
    ∈ exportedRecords (Storage.exportDataByRange 2024 5 2024 12 aprilAndMay)
  ∧ ∀ r, r ∈ exportedRecords (Storage.exportDataByRange 2024 12 2024 1 aprilAndMay) →
         ¬ 0 ≤ MonthlyRecord.month r < 100.
Proof.
  assert (0 ≤ 5 < 100) as H5 by lia.
  assert (0 ≤ 12 < 100) as H12 by lia.
  assert (0 ≤ 1 < 100) as H1 by lia.
  destruct (exportDataByRange_chronological 2024 5 2024 12 aprilAndMay H5 H12)
    as (Hrecords & _).
  destruct (exportDataByRange_chronological 2024 12 2024 1 aprilAndMay H12 H1)
    as (_ & _ & Hinverted & _).
  split.
  - apply Hrecords; [exact H5|].
    split; [right; by left|]. unfold notAfter. simpl. lia.
  - apply Hinverted. unfold notAfter. lia.
Defined.

(** ** Hiding an account *)

Lemma sumZ_insert {A} (f : A → Z) (l : list A) i x y :
  l !! i = Some x → sumZ (f <$> <[i := y]> l) = sumZ (f <$> l) - f x + f y.
Proof.
  revert i. induction l as [|z l IH]; intros i Hi; [done|].
  destruct i as [|i]; simpl in Hi.
  - injection Hi as ->. unfold sumZ. simpl. lia.
  - specialize (IH i Hi). unfold sumZ, fmap in *. simpl in *. lia.
Qed.

(** X26. Hiding an account takes out of the net worth of every month
    what the account added to it, and leaves what the other accounts
    add; the records and the logs are not touched.  The account
    hidden is the first with the identifier. *)
Theorem hideAccount_netWorth env id ls index oldAccount year month :
  list_find (λ a, Account.id a = id) (accounts (Storage.loadData ls))
    = Some (index, oldAccount) →
  let after := (Storage.updateAccount env id (setHidden true) ls).2 in
  Calculator.calculateNetWorth year month after
  = Calculator.calculateNetWorth year month ls
    - netContribution (Storage.getMonthlyRecordsByMonth year month ls) oldAccount
  ∧ records (Storage.loadData after) = records (Storage.loadData ls)
  ∧ logs (Storage.loadData after) = logs (Storage.loadData ls).
Proof.
  intros Hfind. simpl.
  destruct (updateAccount_found env id (setHidden true) ls index oldAccount Hfind)
    as (_ & Haccs & _ & Hrecs & _).
  destruct (updateAccount_in_place env id (setHidden true) ls index oldAccount Hfind)
    as (_ & _ & _ & _ & _ & Hquiet).
  destruct (Hquiet eq_refl) as [Hrecords Hlogs]. specialize (Hlogs eq_refl).
  simpl in Haccs, Hrecords, Hlogs.
  apply list_find_Some in Hfind as (Hindex & _ & _).
  split_and!; [|done|done].
  rewrite !netWorth_sum.
  unfold Storage.getAllAccounts, Storage.getMonthlyRecordsByMonth.
  rewrite Haccs, Hrecords, (sumZ_insert _ _ _ _ _ Hindex).
  unfold netContribution at 3. simpl. lia.
Qed.

Lemma hideAccount_netWorth_witness :
  Calculator.calculateNetWorth 2024 4
    (Storage.updateAccount sampleEnv "c" (setHidden true) walletAndCard).2
  = Calculator.calculateNetWorth 2024 4 walletAndCard - (- 50).
Proof.
  exact (proj1 (hideAccount_netWorth sampleEnv "c" walletAndCard 1%nat cardAccount 2024 4
                  eq_refl)).
Defined.
